(** * The interactive pause/resume control plane of argus

    A shallow embedding of [argus/debug/debugger.py], [argus/debug/listener.py]
    and of the [debug] section of [argus/config.py].

    The two processes (the subject that pauses, the operator console that
    resumes it) are programs over one signature of primitive operations
    (the calls into [multiprocessing.connection], [logging], [raw_input] and
    [open]).  A program is a tree of such calls; [run] executes a tree
    against a [World] that holds the channels, the operator's keyboard, the
    files and the trace of what happened, and stops where the Python code
    would block. *)

From Stdlib Require Import ZArith NArith String Ascii List Bool Lia.
From Stdlib Require Strings.Byte DecimalString.
From stdpp Require Import base option list gmap strings.

Local Open Scope string_scope.
Local Open Scope list_scope.
Local Open Scope stdpp_scope.

Set Implicit Arguments.

(** ** Python values and exceptions *)

(** The exceptions the code can meet.  [ValueError] is the exception that
    [_notice_server] and [start] catch around [send_bytes]. *)
Inductive exn : Type :=
| AuthenticationError
| ValueError
| TypeError
| EOFError
| IOError
| SocketError
| NoOptionError
| NoSectionError.

Inductive pyval : Type :=
| PNone
| PBool (b : bool)
| PInt (z : Z)
| PStr (s : string)
| PExc (e : exn).

#[global] Instance exn_eq_dec : EqDecision exn.
Proof. solve_decision. Defined.

#[global] Instance pyval_eq_dec : EqDecision pyval.
Proof. solve_decision. Defined.

(** [len(s)] of a Python 2 [str]. *)
Definition len (s : string) : N := N.of_nat (String.length s).

(** ** Connections, loggers, events *)

Inductive side : Type := Subject | Console.

#[global] Instance side_eq_dec : EqDecision side.
Proof. solve_decision. Defined.

(** A [Connection] object: one end of channel number [cid]. *)
Record Connection : Type := { cid : nat; held_by : side }.

Record ListenerHandle : Type := { bound_at : string * Z }.

Inductive level : Type := EXCEPTION | WARNING | INFO.

(** A [logging.Logger], identified by its name. *)
Record Logger : Type := { logger_name : string }.

Inductive event : Type :=
| EConnect (c : nat)
| EListen (address : string * Z)
| EAccept (c : nat)
| ESend (s : side) (c : nat) (buf : string)
| ERecv (s : side) (c : nat) (buf : string)
| EClose (s : side) (c : nat)                (* a call of [close] *)
| EDrop (s : side) (c : nat)                 (* closed by the interpreter *)
| ELog (l : Logger) (lvl : level) (msg : string)
| EPrompt (prompt : string)
| ERead (path : string).

(** The state of one channel: the two queues of framed messages and which
    ends have been closed. *)
Record chan : Type := {
  to_console : list string;
  to_subject : list string;
  closed_by_subject : bool;
  closed_by_console : bool }.

Definition empty_chan : chan :=
  {| to_console := []; to_subject := [];
     closed_by_subject := false; closed_by_console := false |}.

Record World : Type := {
  listening : option (string * Z * string);  (* address and secret of the console's listener *)
  chans : gmap nat chan;
  backlog : list nat;                        (* connections made, not yet accepted *)
  fresh : nat;                               (* next channel number *)
  stdin : list string;                       (* lines the operator has typed *)
  files : gmap string string;
  trace : list event }.

Definition emit (evs : list event) (w : World) : World :=
  {| listening := listening w; chans := chans w; backlog := backlog w;
     fresh := fresh w; stdin := stdin w; files := files w;
     trace := trace w ++ evs |}.

Definition set_chan (c : nat) (ch : chan) (w : World) : World :=
  {| listening := listening w; chans := <[c := ch]> (chans w);
     backlog := backlog w; fresh := fresh w; stdin := stdin w;
     files := files w; trace := trace w |}.

Definition set_backlog (b : list nat) (w : World) : World :=
  {| listening := listening w; chans := chans w; backlog := b;
     fresh := fresh w; stdin := stdin w; files := files w;
     trace := trace w |}.

Definition set_fresh (n : nat) (w : World) : World :=
  {| listening := listening w; chans := chans w; backlog := backlog w;
     fresh := n; stdin := stdin w; files := files w; trace := trace w |}.

Definition set_stdin (l : list string) (w : World) : World :=
  {| listening := listening w; chans := chans w; backlog := backlog w;
     fresh := fresh w; stdin := l; files := files w; trace := trace w |}.

Definition set_listening (l : option (string * Z * string)) (w : World) : World :=
  {| listening := l; chans := chans w; backlog := backlog w;
     fresh := fresh w; stdin := stdin w; files := files w;
     trace := trace w |}.

(** ** Primitive operations

    The index of [op] is the type of what the call hands back; a call that
    can raise hands back [exn + R]. *)
Inductive op : Type -> Type :=
| OpClient (address : string * Z) (authkey : string) : op (exn + Connection)
| OpListener (address : string * Z) (authkey : string) : op (exn + ListenerHandle)
| OpAccept (l : ListenerHandle) : op (exn + Connection)
| OpSendBytes (conn : Connection) (buf : string) : op (exn + unit)
| OpRecvBytes (conn : Connection) : op (exn + string)
| OpClose (conn : Connection) : op unit
| OpDrop (conn : Connection) : op unit
| OpLog (l : Logger) (lvl : level) (msg : string) : op pyval
| OpRawInput (prompt : string) : op string
| OpOpenRead (path : string) : op (exn + string).


Definition queue_in (s : side) (ch : chan) : list string :=
  match s with Subject => to_subject ch | Console => to_console ch end.

Definition closed_by (s : side) (ch : chan) : bool :=
  match s with Subject => closed_by_subject ch | Console => closed_by_console ch end.

Definition peer (s : side) : side :=
  match s with Subject => Console | Console => Subject end.

Definition set_queue_in (s : side) (q : list string) (ch : chan) : chan :=
  match s with
  | Subject => {| to_console := to_console ch; to_subject := q;
                  closed_by_subject := closed_by_subject ch;
                  closed_by_console := closed_by_console ch |}
  | Console => {| to_console := q; to_subject := to_subject ch;
                  closed_by_subject := closed_by_subject ch;
                  closed_by_console := closed_by_console ch |}
  end.

Definition set_closed_by (s : side) (ch : chan) : chan :=
  match s with
  | Subject => {| to_console := to_console ch; to_subject := to_subject ch;
                  closed_by_subject := true;
                  closed_by_console := closed_by_console ch |}
  | Console => {| to_console := to_console ch; to_subject := to_subject ch;
                  closed_by_subject := closed_by_subject ch;
                  closed_by_console := true |}
  end.

(** What one primitive call does to the world.  [None] means that the call
    blocks in this world: nothing to accept, nothing to receive, nothing
    typed yet.

    The connection primitives follow [multiprocessing.connection] on a
    connection over a socket, which is what an address (ip, port) gives.
    [Client] fails with [AuthenticationError] when the secret is not the
    listener's.  The handshake is taken as one step of the client: a
    connection is queued for [accept] with the handshake done, and a client
    with a wrong secret does not get into the queue; the half of the
    handshake that the library runs inside [accept], and with it the
    [AuthenticationError] that [accept] raises in the console for such a
    client, is left out.  [send_bytes] frames a message whatever its
    length and fails only on an end that is closed; it has no ceiling of
    32 MB.  [recv_bytes] hands over whole messages in order, blocks while
    there is none, and fails with [EOFError] once the other end is closed
    and nothing is left.

    An end of a connection is closed in two ways.  [OpClose] is a call of
    [close], recorded as [EClose].  [OpDrop] is what CPython does when the
    last reference to a [Connection] goes away: the object is destroyed and
    its handle closed, if it was still open; this is recorded as [EDrop].
    A program contains an [OpDrop] where it says so: the loop [rebinding]
    of the console does, for the assignment to [conn]; [pause], [serve] and
    [while_true] are the calls that the code writes down, so in their runs
    the closed ends are the ends that [close] was called on. *)
Definition exec {R : Type} (o : op R) (w : World) : option (R * World) :=
  match o in op R return option (R * World) with
  | OpClient address authkey =>
      match listening w with
      | Some (ip, port, key) =>
          if decide ((ip, port) = address) then
            if decide (key = authkey) then
              let c := fresh w in
              Some (inr {| cid := c; held_by := Subject |},
                    emit [EConnect c]
                      (set_fresh (S c)
                         (set_backlog (backlog w ++ [c])
                            (set_chan c empty_chan w))))
            else Some (inl AuthenticationError, w)
          else Some (inl SocketError, w)
      | None => Some (inl SocketError, w)
      end
  | OpListener address authkey =>
      match listening w with
      | Some _ => Some (inl SocketError, w)
      | None =>
          Some (inr {| bound_at := address |},
                emit [EListen address]
                  (set_listening (Some (address.1, address.2, authkey)) w))
      end
  | OpAccept l =>
      match backlog w with
      | [] => None
      | c :: rest =>
          Some (inr {| cid := c; held_by := Console |},
                emit [EAccept c] (set_backlog rest w))
      end
  | OpSendBytes conn buf =>
      match chans w !! cid conn with
      | None => Some (inl IOError, w)
      | Some ch =>
          if closed_by (held_by conn) ch then Some (inl IOError, w)
          else
            let s := peer (held_by conn) in
            Some (inr tt,
                  emit [ESend (held_by conn) (cid conn) buf]
                    (set_chan (cid conn)
                       (set_queue_in s (queue_in s ch ++ [buf]) ch) w))
      end
  | OpRecvBytes conn =>
      match chans w !! cid conn with
      | None => Some (inl IOError, w)
      | Some ch =>
          if closed_by (held_by conn) ch then Some (inl IOError, w)
          else
            match queue_in (held_by conn) ch with
            | buf :: q =>
                Some (inr buf,
                      emit [ERecv (held_by conn) (cid conn) buf]
                        (set_chan (cid conn)
                           (set_queue_in (held_by conn) q ch) w))
            | [] =>
                if closed_by (peer (held_by conn)) ch
                then Some (inl EOFError, w)
                else None
            end
      end
  | OpClose conn =>
      match chans w !! cid conn with
      | None => Some (tt, w)
      | Some ch =>
          Some (tt,
                emit [EClose (held_by conn) (cid conn)]
                  (set_chan (cid conn) (set_closed_by (held_by conn) ch) w))
      end
  | OpDrop conn =>
      match chans w !! cid conn with
      | None => Some (tt, w)
      | Some ch =>
          if closed_by (held_by conn) ch then Some (tt, w)
          else
            Some (tt,
                  emit [EDrop (held_by conn) (cid conn)]
                    (set_chan (cid conn) (set_closed_by (held_by conn) ch) w))
      end
  | OpLog l lvl msg => Some (PNone, emit [ELog l lvl msg] w)
  | OpRawInput prompt =>
      match stdin w with
      | [] => None
      | line :: rest =>
          Some (line, emit [EPrompt prompt] (set_stdin rest w))
      end
  | OpOpenRead path =>
      match files w !! path with
      | Some content => Some (inr content, emit [ERead path] w)
      | None => Some (inl IOError, w)
      end
  end.

(** ** Programs *)

Inductive Prog (A : Type) : Type :=
| Ret (a : A)
| Raise (e : exn)
| Cut                                        (* the unrolling bound of a loop was reached *)
| Vis (R : Type) (o : op R) (k : R -> Prog A).

Arguments Ret {A} a.
Arguments Raise {A} e.
Arguments Cut {A}.
Arguments Vis {A R} o k.

Fixpoint bind {A B : Type} (p : Prog A) (f : A -> Prog B) : Prog B :=
  match p with
  | Ret a => f a
  | Raise e => Raise e
  | Cut => Cut
  | Vis o k => Vis o (fun r => bind (k r) f)
  end.

Notation "x <- p ;; q" := (bind p (fun x => q))
  (at level 100, p at next level, right associativity).
Notation "p ;; q" := (bind p (fun _ => q))
  (at level 100, right associativity).

(** [try: p except ...: h e]; [h] answers [None] for the exceptions that no
    [except] clause matches. *)
Fixpoint try_except {A : Type} (p : Prog A) (h : exn -> option (Prog A)) : Prog A :=
  match p with
  | Ret a => Ret a
  | Raise e => match h e with Some q => q | None => Raise e end
  | Cut => Cut
  | Vis o k => Vis o (fun r => try_except (k r) h)
  end.

(** [raise v]: only an exception can be raised; anything else, [None]
    included, is a [TypeError]. *)
Definition py_raise {A : Type} (v : pyval) : Prog A :=
  match v with
  | PExc e => Raise e
  | _ => Raise TypeError
  end.

Definition lift {R : Type} (r : exn + R) : Prog R :=
  match r with inl e => Raise e | inr v => Ret v end.

(** How a run ends: the program returned, raised, is blocked in a call (and
    can be resumed there later), or reached the unrolling bound. *)
Inductive Status (A : Type) : Type :=
| Returned (a : A)
| Raised (e : exn)
| Blocked (k : Prog A)
| Truncated.

Arguments Returned {A} a.
Arguments Raised {A} e.
Arguments Blocked {A} k.
Arguments Truncated {A}.

Fixpoint run {A : Type} (p : Prog A) (w : World) : Status A * World :=
  match p with
  | Ret a => (Returned a, w)
  | Raise e => (Raised e, w)
  | Cut => (Truncated, w)
  | Vis o k =>
      match exec o w with
      | Some (r, w') => run (k r) w'
      | None => (Blocked p, w)
      end
  end.

(** ** The library calls, as programs *)

Module connection.

Definition Client (address : string * Z) (authkey : string) : Prog Connection :=
  Vis (OpClient address authkey) lift.

Definition Listener (address : string * Z) (authkey : string) : Prog ListenerHandle :=
  Vis (OpListener address authkey) lift.

Definition accept (l : ListenerHandle) : Prog Connection :=
  Vis (OpAccept l) lift.

Definition send_bytes (conn : Connection) (buf : string) : Prog unit :=
  Vis (OpSendBytes conn buf) lift.

Definition recv_bytes (conn : Connection) : Prog string :=
  Vis (OpRecvBytes conn) lift.

Definition close (conn : Connection) : Prog unit :=
  Vis (OpClose conn) Ret.

(** A variable that held [conn] is bound to something else, and nothing
    else refers to the object: CPython destroys it, which closes it.  With
    the variable unbound before, nothing happens. *)
Definition drop (conn : option Connection) : Prog unit :=
  match conn with
  | Some c => Vis (OpDrop c) Ret
  | None => Ret tt
  end.

End connection.

Module logging.

(** [Logger.exception], [Logger.warning] and [Logger.info] write one
    record and return [None]. *)
Definition exception (l : Logger) (msg : string) : Prog pyval :=
  Vis (OpLog l EXCEPTION msg) Ret.

Definition warning (l : Logger) (msg : string) : Prog pyval :=
  Vis (OpLog l WARNING msg) Ret.

Definition info (l : Logger) (msg : string) : Prog pyval :=
  Vis (OpLog l INFO msg) Ret.

End logging.

Definition raw_input (prompt : string) : Prog string :=
  Vis (OpRawInput prompt) Ret.

(** [with open(path) as f: ... f.read()] *)
Definition open_read (path : string) : Prog string :=
  Vis (OpOpenRead path) lift.

(** ** argus/config.py: the [debug] section *)

(** The namedtuple [debug(flag, ip, port, authkey)]. *)
Record debug : Type := {
  flag : bool;
  ip : string;
  port : Z;
  authkey : string }.

Inductive parser_type : Type := BOOL | INT.

Definition value_of (t : option parser_type) : Type :=
  match t with
  | Some BOOL => bool
  | Some INT => Z
  | None => string
  end.

Section ConfigurationParser.

(** The [ConfigParser] object and its three readers; each raises
    [NoOptionError] for an option the section does not have.  The type of
    the default of [_get_default] is the one that [parser_type] selects, so
    that parameter comes first here. *)
Variable parser : Type.
Variable getboolean : parser -> string -> string -> exn + bool.
Variable getint : parser -> string -> string -> exn + Z.
Variable get : parser -> string -> string -> exn + string.

Definition _get_default (t : option parser_type) (p : parser)
    (section option : string) (default : value_of t) : Prog (value_of t) :=
  try_except
    (match t return Prog (value_of t) with
     | Some BOOL => lift (getboolean p section option)
     | Some INT => lift (getint p section option)
     | None => lift (get p section option)
     end)
    (fun e => match e with
              | NoOptionError => Some (Ret default)
              | _ => None
              end).

Definition ConfigurationParser_debug (p : parser) : Prog debug :=
  flag <- _get_default (Some BOOL) p "debug" "flag" false ;;
  ip <- _get_default None p "debug" "ip" "127.0.0.1" ;;
  port <- _get_default (Some INT) p "debug" "port" 5555%Z ;;
  authkey <- _get_default None p "debug" "authkey" "authkey" ;;
  Ret {| flag := flag; ip := ip; port := port; authkey := authkey |}.

End ConfigurationParser.

(** ** argus/debug/debugger.py *)

(** What is wrapped by [wait]: a function with its [__name__]; it is called
    with positional and keyword arguments. *)
Record function : Type := {
  __name__ : string;
  call : list pyval -> list (string * pyval) -> Prog pyval }.

(** The abstract class: the two hooks that [wait] calls. *)
Class BaseDebugger (D : Type) : Type := {
  _action_before_method : D -> string -> Prog pyval;
  _action_after_method : D -> string -> Prog pyval }.

(** [BaseDebugger.wait]: the decorator.  [_inner] ends without a [return]
    statement, so its value is [None]. *)
Definition wait {D : Type} `{BaseDebugger D} (self : D) (func : function)
    : list pyval -> list (string * pyval) -> Prog pyval :=
  fun args kwargs =>
    let name := __name__ func in
    _action_before_method self name ;;
    call func args kwargs ;;
    _action_after_method self name ;;
    Ret PNone.

Module EmptyDebugger.

Inductive t : Type := Build.

Definition __init__ : t := Build.

Definition pause (self : t) (args : list pyval) : Prog pyval := Ret PNone.

Definition _action_before_method (self : t) (func_name : string) : Prog pyval :=
  Ret PNone.

Definition _action_after_method (self : t) (func_name : string) : Prog pyval :=
  Ret PNone.

End EmptyDebugger.

#[global] Instance EmptyDebugger_BaseDebugger : BaseDebugger EmptyDebugger.t := {|
  _action_before_method := EmptyDebugger._action_before_method;
  _action_after_method := EmptyDebugger._action_after_method |}.

Module BasicDebugger.

Record t : Type := {
  _ip : string;
  _port : Z;
  _authkey : string;
  _log : Logger }.

(** [BaseDebugger.__init__(self, config, log)] *)
Definition __init__ (config : debug) (log : Logger) : t :=
  {| _ip := ip config; _port := port config;
     _authkey := authkey config; _log := log |}.

Definition _PAUSE : string := "pause".
Definition _RESUME : string := "resume".

Definition _new_client (self : t) : Prog Connection :=
  try_except
    (connection.Client (_ip self, _port self) (_authkey self))
    (fun e => match e with
              | AuthenticationError =>
                  Some (v <- logging.exception (_log self)
                               ("AuthenticationError - Client creation"
                                +:+ "failed. Check authentication key!") ;;
                        py_raise v)
              | _ => None
              end).

Definition _notice_server (self : t) (client : Connection)
    (action msg : string) : Prog pyval :=
  try_except
    (connection.send_bytes client action ;;
     connection.send_bytes client msg ;;
     Ret PNone)
    (fun e => match e with
              | ValueError =>
                  Some (logging.exception (_log self)
                          "ValueError - Message has more than 32MB." ;;
                        Ret PNone)
              | _ => None
              end).

Definition pause (self : t) (msg : string) : Prog pyval :=
  client <- _new_client self ;;
  _notice_server self client _PAUSE msg ;;
  r <- connection.recv_bytes client ;;
  if decide (r = _RESUME) then
    connection.close client ;; Ret PNone
  else Ret PNone.

Definition _action_before_method (self : t) (func_name : string) : Prog pyval :=
  pause self ("We are before method " +:+ func_name +:+ "!") ;; Ret PNone.

Definition _action_after_method (self : t) (func_name : string) : Prog pyval :=
  pause self ("We are after method " +:+ func_name +:+ "!") ;; Ret PNone.

End BasicDebugger.

#[global] Instance BasicDebugger_BaseDebugger : BaseDebugger BasicDebugger.t := {|
  _action_before_method := BasicDebugger._action_before_method;
  _action_after_method := BasicDebugger._action_after_method |}.

(** What [Debugger.get] hands out: an object of one of the two classes;
    a method call on it goes to that class. *)
Inductive debugger_object : Type :=
| AnEmptyDebugger (d : EmptyDebugger.t)
| ABasicDebugger (d : BasicDebugger.t).

#[global] Instance debugger_object_BaseDebugger : BaseDebugger debugger_object := {|
  _action_before_method d name :=
    match d with
    | AnEmptyDebugger e => EmptyDebugger._action_before_method e name
    | ABasicDebugger b => BasicDebugger._action_before_method b name
    end;
  _action_after_method d name :=
    match d with
    | AnEmptyDebugger e => EmptyDebugger._action_after_method e name
    | ABasicDebugger b => BasicDebugger._action_after_method b name
    end |}.

Module Debugger.

Record t : Type := {
  _config : debug;
  _log : Logger }.

Definition __init__ (config : debug) (log : Logger) : t :=
  {| _config := config; _log := log |}.

Definition get (self : t) : Prog debugger_object :=
  if flag (_config self) then
    content <- open_read "argus/debug/disclaimer.txt" ;;
    logging.warning (_log self) content ;;
    Ret (ABasicDebugger (BasicDebugger.__init__ (_config self) (_log self)))
  else
    Ret (AnEmptyDebugger EmptyDebugger.__init__).

End Debugger.

(** ** argus/debug/listener.py *)

Module BasicListener.

Record t : Type := {
  _ip : string;
  _port : Z;
  _authkey : string;
  _log : Logger;
  _stdout : Logger }.

Definition __init__ (config : debug) (log stdout : Logger) : t :=
  {| _ip := ip config; _port := port config; _authkey := authkey config;
     _log := log; _stdout := stdout |}.

Definition _PAUSE : string := "pause".
Definition _RESUME : string := "resume".

Definition _new_listener (self : t) : Prog ListenerHandle :=
  try_except
    (connection.Listener (_ip self, _port self) (_authkey self))
    (fun e => match e with
              | AuthenticationError =>
                  Some (v <- logging.exception (_log self)
                               ("AuthenticationError - Listener creation"
                                +:+ "failed. Check authentication key!") ;;
                        py_raise v)
              | _ => None
              end).

(** The body of the [while True:] of [start], call by call.  What the
    assignment of line 47 does to the connection of the turn before is left
    to [rebinding] below. *)
Definition serve (self : t) (listener : ListenerHandle) : Prog pyval :=
  conn <- connection.accept listener ;;
  typec <- connection.recv_bytes conn ;;
  msg <- connection.recv_bytes conn ;;
  if decide (typec = _PAUSE) then
    logging.info (_stdout self) msg ;;
    logging.info (_stdout self) "Enter the number of what you want to do:" ;;
    logging.info (_stdout self) "1. Continue" ;;
    option <- raw_input "Prompt: " ;;
    if decide (option = "1") then
      logging.info (_stdout self) "Argus is resumed!" ;;
      try_except
        (connection.send_bytes conn _RESUME ;; Ret PNone)
        (fun e => match e with
                  | ValueError =>
                      Some (logging.exception (_log self)
                              ("ValueError - Message has more "
                               +:+ "than 32MB.") ;;
                            Ret PNone)
                  | _ => None
                  end)
    else Ret PNone
  else Ret PNone.

(** [while True: body], unrolled [n] times; the loop itself never ends, and
    what is proved of it is proved for every [n]. *)
Fixpoint while_true (n : nat) (body : Prog pyval) : Prog pyval :=
  match n with
  | O => Cut
  | S n' => body ;; while_true n' body
  end.

Definition start (self : t) (n : nat) : Prog pyval :=
  listener <- _new_listener self ;;
  while_true n (serve self listener).

(** Lines 48 to 61: what a turn of the loop does with the connection that
    [accept] has returned; [serve] is [accept] followed by this. *)
Definition handle (self : t) (conn : Connection) : Prog pyval :=
  typec <- connection.recv_bytes conn ;;
  msg <- connection.recv_bytes conn ;;
  if decide (typec = _PAUSE) then
    logging.info (_stdout self) msg ;;
    logging.info (_stdout self) "Enter the number of what you want to do:" ;;
    logging.info (_stdout self) "1. Continue" ;;
    option <- raw_input "Prompt: " ;;
    if decide (option = "1") then
      logging.info (_stdout self) "Argus is resumed!" ;;
      try_except
        (connection.send_bytes conn _RESUME ;; Ret PNone)
        (fun e => match e with
                  | ValueError =>
                      Some (logging.exception (_log self)
                              ("ValueError - Message has more "
                               +:+ "than 32MB.") ;;
                            Ret PNone)
                  | _ => None
                  end)
    else Ret PNone
  else Ret PNone.

(** The loop of [start] together with its variable [conn].  Line 47 binds
    [conn] to the connection that [accept] returns; the [Connection] that
    [conn] held from the turn before has no other reference, so CPython
    closes it at that moment, and not earlier: while [accept] waits, [conn]
    still holds it.  [held] is the value of [conn] when the turn begins;
    the loop is unrolled [n] times as in [while_true]. *)
Fixpoint rebinding (n : nat) (self : t) (listener : ListenerHandle)
    (held : option Connection) : Prog pyval :=
  match n with
  | O => Cut
  | S n' =>
      conn <- connection.accept listener ;;
      connection.drop held ;;
      handle self conn ;;
      rebinding n' self listener (Some conn)
  end.

(** [start], the variable [conn] being unbound when the loop begins. *)
Definition start_rebinding (self : t) (n : nat) : Prog pyval :=
  listener <- _new_listener self ;;
  rebinding n self listener None.

End BasicListener.

(** ** Vocabulary of the statements *)

(** The world after a primitive call that went through. *)
Definition connected (w : World) : World :=
  emit [EConnect (fresh w)]
    (set_fresh (S (fresh w))
       (set_backlog (backlog w ++ [fresh w])
          (set_chan (fresh w) empty_chan w))).

Definition sent (conn : Connection) (buf : string) (ch : chan) (w : World) : World :=
  emit [ESend (held_by conn) (cid conn) buf]
    (set_chan (cid conn)
       (set_queue_in (peer (held_by conn))
          (queue_in (peer (held_by conn)) ch ++ [buf]) ch) w).

Definition received (conn : Connection) (buf : string) (q : list string)
    (ch : chan) (w : World) : World :=
  emit [ERecv (held_by conn) (cid conn) buf]
    (set_chan (cid conn) (set_queue_in (held_by conn) q ch) w).

Definition closed (conn : Connection) (ch : chan) (w : World) : World :=
  emit [EClose (held_by conn) (cid conn)]
    (set_chan (cid conn) (set_closed_by (held_by conn) ch) w).

(** The console listens at the debugger's address with the debugger's
    secret. *)
Definition accepts (w : World) (d : BasicDebugger.t) : Prop :=
  listening w
  = Some (BasicDebugger._ip d, BasicDebugger._port d, BasicDebugger._authkey d).

(** The console listens at the debugger's address with another secret. *)
Definition rejects (w : World) (d : BasicDebugger.t) : Prop :=
  exists key,
    listening w = Some (BasicDebugger._ip d, BasicDebugger._port d, key)
    /\ key <> BasicDebugger._authkey d.

(** The [Connection] that the next [Client] call returns. *)
Definition next_client (w : World) : Connection :=
  {| cid := fresh w; held_by := Subject |}.

(** End [s] of channel [c] is open. *)
Definition open_at (s : side) (c : nat) (w : World) : Prop :=
  exists ch, chans w !! c = Some ch /\ closed_by s ch = false.

(** Where [pause] is once its request is out: in the [recv_bytes] of its
    last two lines. *)
Definition awaiting (client : Connection) : Prog pyval :=
  r <- connection.recv_bytes client ;;
  if decide (r = BasicDebugger._RESUME) then
    connection.close client ;; Ret PNone
  else Ret PNone.

(** The world once [pause self msg] has connected and sent its two framed
    messages. *)
Definition requested (msg : string) (w : World) : World :=
  {| listening := listening w;
     chans := <[fresh w := {| to_console := [BasicDebugger._PAUSE; msg];
                              to_subject := [];
                              closed_by_subject := false;
                              closed_by_console := false |}]> (chans w);
     backlog := backlog w ++ [fresh w];
     fresh := S (fresh w);
     stdin := stdin w;
     files := files w;
     trace := trace w ++ [EConnect (fresh w);
                          ESend Subject (fresh w) BasicDebugger._PAUSE;
                          ESend Subject (fresh w) msg] |}.

(** The world once the subject has taken [r] from channel [c] in [awaiting]:
    it closes its end exactly for the resume signal. *)
Definition answered (c : nat) (r : string) (q : list string) (ch : chan)
    (w : World) : World :=
  {| listening := listening w;
     chans := <[c := {| to_console := to_console ch;
                        to_subject := q;
                        closed_by_subject := bool_decide (r = BasicDebugger._RESUME);
                        closed_by_console := closed_by_console ch |}]> (chans w);
     backlog := backlog w;
     fresh := fresh w;
     stdin := stdin w;
     files := files w;
     trace := trace w ++ ERecv Subject c r
                         :: (if decide (r = BasicDebugger._RESUME)
                             then [EClose Subject c] else []) |}.

(** The world once [pause self msg] has sent its request, the console has
    answered [r], and [pause] has taken the answer. *)
Definition after_answer (msg r : string) (w : World) : World :=
  {| listening := listening w;
     chans := <[fresh w := {| to_console := [BasicDebugger._PAUSE; msg];
                              to_subject := [];
                              closed_by_subject := bool_decide (r = BasicDebugger._RESUME);
                              closed_by_console := false |}]> (chans w);
     backlog := backlog w ++ [fresh w];
     fresh := S (fresh w);
     stdin := stdin w;
     files := files w;
     trace := trace w ++ [EConnect (fresh w);
                          ESend Subject (fresh w) BasicDebugger._PAUSE;
                          ESend Subject (fresh w) msg;
                          ESend Console (fresh w) r;
                          ERecv Subject (fresh w) r]
                      ++ (if decide (r = BasicDebugger._RESUME)
                          then [EClose Subject (fresh w)] else []) |}.

(** One rendezvous on channel [c], as the trace shows it: the subject
    connects and sends its request, the console sends the resume signal, the
    subject takes it and closes its end. *)
Definition rendezvous (c : nat) (msg : string) : list event :=
  [EConnect c;
   ESend Subject c BasicDebugger._PAUSE;
   ESend Subject c msg;
   ESend Console c BasicListener._RESUME;
   ERecv Subject c BasicDebugger._RESUME;
   EClose Subject c].

(** The world after one rendezvous of [pause self msg]. *)
Definition after_rendezvous (msg : string) (w : World) : World :=
  {| listening := listening w;
     chans := <[fresh w := {| to_console := [BasicDebugger._PAUSE; msg];
                              to_subject := [];
                              closed_by_subject := true;
                              closed_by_console := false |}]> (chans w);
     backlog := backlog w ++ [fresh w];
     fresh := S (fresh w);
     stdin := stdin w;
     files := files w;
     trace := trace w ++ rendezvous (fresh w) msg |}.

(** Going on after a block, in the world as it is by then. *)
Definition resume {A : Type} (s : Status A) (w : World) : Status A * World :=
  match s with
  | Blocked k => run k w
  | _ => (s, w)
  end.

(** [run_with env p w]: run [p]; each time it blocks, let the next action
    of [env] change the world and go on from there.  The actions that were
    not needed are handed back. *)
Fixpoint run_with {A : Type} (env : list (World -> World)) (p : Prog A)
    (w : World) {struct env} : Status A * World * list (World -> World) :=
  match run p w with
  | (Blocked k, w1) =>
      match env with
      | e :: env' => run_with env' k (e w1)
      | [] => (Blocked k, w1, [])
      end
  | (s, w1) => (s, w1, env)
  end.

(** What the other end does to channel [c]: the console sends [buf] on
    it ... *)
Definition deliver (c : nat) (buf : string) (w : World) : World :=
  match exec (OpSendBytes {| cid := c; held_by := Console |} buf) w with
  | Some (_, w') => w'
  | None => w
  end.


(** Both processes, taking turns: the console runs until it blocks, then
    the subject does. *)
Fixpoint interleave {A B : Type} (rounds : nat) (subject : Status A)
    (console : Status B) (w : World) : Status A * Status B * World :=
  match rounds with
  | O => (subject, console, w)
  | S n =>
      let '(console', w1) := resume console w in
      let '(subject', w2) := resume subject w1 in
      interleave n subject' console' w2
  end.

(** All values a program can return satisfy [P]. *)
Fixpoint returns_only {A : Type} (P : A -> Prop) (p : Prog A) : Prop :=
  match p with
  | Ret a => P a
  | Raise _ => True
  | Cut => True
  | Vis o k => forall r, returns_only P (k r)
  end.

(** The events of the trace that are the subject's own network calls. *)
Definition by_subject (e : event) : bool :=
  match e with
  | EConnect _ => true
  | ESend Subject _ _ => true
  | ERecv Subject _ _ => true
  | EClose Subject _ => true
  | _ => false
  end.


(** ** The console's turns *)

(** The world once the console has served a pause request of text [msg] on
    channel [c] and the operator has answered "1". *)
Definition served_resume (stdout : Logger) (c : nat) (msg : string)
    (q : list string) (ch : chan) (rest : list nat) (lines : list string)
    (w : World) : World :=
  {| listening := listening w;
     chans := <[c := {| to_console := q;
                        to_subject := to_subject ch ++ [BasicListener._RESUME];
                        closed_by_subject := closed_by_subject ch;
                        closed_by_console := false |}]> (chans w);
     backlog := rest;
     fresh := fresh w;
     stdin := lines;
     files := files w;
     trace := trace w ++ [EAccept c;
                          ERecv Console c BasicListener._PAUSE;
                          ERecv Console c msg;
                          ELog stdout INFO msg;
                          ELog stdout INFO "Enter the number of what you want to do:";
                          ELog stdout INFO "1. Continue";
                          EPrompt "Prompt: ";
                          ELog stdout INFO "Argus is resumed!";
                          ESend Console c BasicListener._RESUME] |}.

(** What the interpreter does to the world when the variable that held
    [conn] is bound again. *)
Definition let_go (conn : option Connection) (w : World) : World :=
  match conn with
  | Some c =>
      match exec (OpDrop c) w with
      | Some (_, w') => w'
      | None => w
      end
  | None => w
  end.

(** What the trace gets for it. *)
Definition drop_events (conn : option Connection) (w : World) : list event :=
  match conn with
  | Some c =>
      match chans w !! cid c with
      | Some ch =>
          if closed_by (held_by c) ch then [] else [EDrop (held_by c) (cid c)]
      | None => []
      end
  | None => []
  end.

(** The world once the loop, its variable holding [held], has accepted
    channel [c] and bound the variable to it. *)
Definition rebound (held : option Connection) (c : nat) (rest : list nat)
    (w : World) : World :=
  let_go held (emit [EAccept c] (set_backlog rest w)).

(** The world once the console has then read the two messages [t] and [msg]
    of channel [c], whose type tag [t] is not "pause". *)
Definition read_only (c : nat) (t msg : string) (q : list string)
    (ch : chan) (w : World) : World :=
  {| listening := listening w;
     chans := <[c := {| to_console := q;
                        to_subject := to_subject ch;
                        closed_by_subject := closed_by_subject ch;
                        closed_by_console := false |}]> (chans w);
     backlog := backlog w;
     fresh := fresh w;
     stdin := stdin w;
     files := files w;
     trace := trace w ++ [ERecv Console c t; ERecv Console c msg] |}.

(** The world once the console has read a pause request of text [msg] on
    channel [c], shown it, and got another answer than "1" from the
    operator. *)
Definition declined (stdout : Logger) (c : nat) (msg : string)
    (q : list string) (ch : chan) (lines : list string) (w : World) : World :=
  {| listening := listening w;
     chans := <[c := {| to_console := q;
                        to_subject := to_subject ch;
                        closed_by_subject := closed_by_subject ch;
                        closed_by_console := false |}]> (chans w);
     backlog := backlog w;
     fresh := fresh w;
     stdin := lines;
     files := files w;
     trace := trace w ++ [ERecv Console c BasicListener._PAUSE;
                          ERecv Console c msg;
                          ELog stdout INFO msg;
                          ELog stdout INFO "Enter the number of what you want to do:";
                          ELog stdout INFO "1. Continue";
                          EPrompt "Prompt: "] |}.

(** Channel [c] as the console's turn has left it, closed by the
    interpreter from the console's side. *)
Definition cut_off (q : list string) (ch : chan) : chan :=
  {| to_console := q;
     to_subject := to_subject ch;
     closed_by_subject := closed_by_subject ch;
     closed_by_console := true |}.

(** ** The scenarios of the specification *)

(** [n * a], a string of [n] characters. *)
Fixpoint str_repeat (a : ascii) (n : nat) : string :=
  match n with
  | O => EmptyString
  | S n' => String a (str_repeat a n')
  end.


Definition scenario_config : debug :=
  {| flag := true; ip := "127.0.0.1"; port := 5555; authkey := "authkey" |}.

Definition wrong_secret_config : debug :=
  {| flag := true; ip := "127.0.0.1"; port := 5555; authkey := "letmein" |}.

Definition disabled_config : debug :=
  {| flag := false; ip := "127.0.0.1"; port := 5555; authkey := "authkey" |}.

Definition LOG : Logger := {| logger_name := "argus" |}.
Definition STDOUT : Logger := {| logger_name := "stdout" |}.

(** The subject of the scenarios, and a subject with the wrong secret. *)
Definition subject : BasicDebugger.t := BasicDebugger.__init__ scenario_config LOG.
Definition intruder : BasicDebugger.t := BasicDebugger.__init__ wrong_secret_config LOG.

(** The console of the scenarios, and the world before it is started, the
    operator's "1" already typed. *)
Definition console : BasicListener.t := BasicListener.__init__ scenario_config LOG STDOUT.

(** The console listens on 127.0.0.1:5555 with secret "authkey"; nothing
    else has happened. *)
Definition console_listening : World :=
  {| listening := Some ("127.0.0.1", 5555%Z, "authkey");
     chans := ∅; backlog := []; fresh := 0; stdin := [];
     files := ∅; trace := [] |}.

Definition before_start : World :=
  {| listening := None; chans := ∅; backlog := []; fresh := 0;
     stdin := ["1"]; files := ∅; trace := [] |}.

(** The world before the console is started, the operator's answers to two
    prompts already typed. *)
Definition before_start_twice : World :=
  {| listening := None; chans := ∅; backlog := []; fresh := 0;
     stdin := ["1"; "1"]; files := ∅; trace := [] |}.

(** A world with the disclaimer on disk. *)
Definition disclaimer_on_disk : World :=
  {| listening := None; chans := ∅; backlog := []; fresh := 0; stdin := [];
     files := {[ "argus/debug/disclaimer.txt" := "Argus runs in debug mode." ]};
     trace := [] |}.

(** An operation that returns 42. *)
Definition answer : function :=
  {| __name__ := "answer"; call := fun _ _ => Ret (PInt 42) |}.

(** ** More worlds of the console and of the scenarios *)

(** A world in which a client that is not a debugger has connected and sent
    "ping" and "hello", and a debugger has sent a pause request after it. *)
Definition stray_then_pause : World :=
  {| listening := Some ("127.0.0.1", 5555%Z, "authkey");
     chans := {[ 0 := {| to_console := ["ping"; "hello"]; to_subject := [];
                         closed_by_subject := false;
                         closed_by_console := false |};
                 1 := {| to_console := ["pause"; "second"]; to_subject := [];
                         closed_by_subject := false;
                         closed_by_console := false |} ]};
     backlog := [0; 1]; fresh := 2; stdin := ["1"]; files := ∅; trace := [] |}.




(** An operation that logs and then fails. *)
Definition failing : function :=
  {| __name__ := "failing";
     call := fun _ _ => logging.info LOG "about to fail" ;; Raise IOError |}.

(** Two subjects have sent their pause requests, the operator has typed "1"
    twice. *)
Definition two_pending : World :=
  {| listening := Some ("127.0.0.1", 5555%Z, "authkey");
     chans := {[ 0 := {| to_console := ["pause"; "first"]; to_subject := [];
                         closed_by_subject := false;
                         closed_by_console := false |};
                 1 := {| to_console := ["pause"; "second"]; to_subject := [];
                         closed_by_subject := false;
                         closed_by_console := false |} ]};
     backlog := [0; 1]; fresh := 2; stdin := ["1"; "1"]; files := ∅;
     trace := [] |}.

(** A client has connected, sent the type tag only, and closed its end. *)
Definition early_hangup : World :=
  {| listening := Some ("127.0.0.1", 5555%Z, "authkey");
     chans := {[ 0 := {| to_console := ["pause"]; to_subject := [];
                         closed_by_subject := true;
                         closed_by_console := false |} ]};
     backlog := [0; 1]; fresh := 2; stdin := ["1"]; files := ∅; trace := [] |}.

(** ** argus/config.py: the rest of the file *)

(** *** The string methods that the file calls *)

(** [s.split(sep)] for a separator of one character: the pieces between the
    separators, empty ones included; never an empty list. *)
Fixpoint str_split (sep : ascii) (s : string) : list string :=
  match s with
  | EmptyString => [EmptyString]
  | String a s' =>
      if Ascii.eqb a sep then EmptyString :: str_split sep s'
      else match str_split sep s' with
           | piece :: rest => String a piece :: rest
           | [] => [String a EmptyString]
           end
  end.

Definition is_linebreak (a : ascii) : bool :=
  Ascii.eqb a "010" || Ascii.eqb a "013".

(** [s.splitlines()] of a byte string: lines end at "\n", "\r" or "\r\n", the
    line ends are dropped, and a line end at the very end opens no further
    line. *)
Fixpoint str_splitlines (s : string) : list string :=
  match s with
  | EmptyString => []
  | String a s' =>
      if Ascii.eqb a "010" then EmptyString :: str_splitlines s'
      else if Ascii.eqb a "013" then
        match s' with
        | String b s'' =>
            if Ascii.eqb b "010" then EmptyString :: str_splitlines s''
            else EmptyString :: str_splitlines s'
        | EmptyString => EmptyString :: str_splitlines s'
        end
      else match str_splitlines s' with
           | line :: rest => String a line :: rest
           | [] => [String a EmptyString]
           end
  end.

(** The whitespace of [str.strip()]: space, tab, line feed, vertical tab,
    form feed, carriage return. *)
Definition is_space (a : ascii) : bool :=
  Ascii.eqb a " " || Ascii.eqb a "009" || Ascii.eqb a "010"
  || Ascii.eqb a "011" || Ascii.eqb a "012" || Ascii.eqb a "013".

Fixpoint str_lstrip (s : string) : string :=
  match s with
  | EmptyString => EmptyString
  | String a s' => if is_space a then str_lstrip s' else s
  end.

Fixpoint str_rstrip (s : string) : string :=
  match s with
  | EmptyString => EmptyString
  | String a s' =>
      match str_rstrip s' with
      | EmptyString => if is_space a then EmptyString else String a EmptyString
      | r => String a r
      end
  end.

Definition str_strip (s : string) : string := str_rstrip (str_lstrip s).

(** [filter(None, l)] on a list of strings: the empty ones go. *)
Definition filter_None (l : list string) : list string :=
  List.filter (fun s => negb (String.eqb s EmptyString)) l.

(** *** [_ConfigParser.getlist] *)

(** What [getlist] makes of the value that [get] returned. *)
Definition getlist_of_value (value : string) : list string :=
  let values := str_splitlines value in
  let iters :=
    map (fun value => map str_strip (filter_None (str_split "," value))) values in
  concat iters.

Definition getlist {parser : Type}
    (get : parser -> string -> string -> exn + string)
    (self : parser) (section option : string) : Prog (list string) :=
  value <- lift (get self section option) ;;
  Ret (getlist_of_value value).

(** *** The other sections *)

(** [_get_default(parser, section, option, default)] where the default is
    not a string ([None], or the list of name servers): what comes back is
    the string that was read, or the default. *)
Definition _get_default_or {parser T : Type}
    (get : parser -> string -> string -> exn + string)
    (p : parser) (section option : string) (default : T) : Prog (string + T) :=
  try_except
    (v <- lift (get p section option) ;; Ret (inl v))
    (fun e => match e with
              | NoOptionError => Some (Ret (inr default))
              | _ => None
              end).

(** A string or [None]. *)
Definition str_or_None (r : string + unit) : option string :=
  match r with inl s => Some s | inr _ => None end.

(** The namedtuple [argus]. *)
Record argus : Type := {
  resources : string;
  pause : bool;
  file_log : option string;
  log_format : option string;
  dns_nameservers : list string;
  output_directory : option string;
  build : string;
  arch : string;
  patch_install : option string;
  git_command : option string }.

Definition RESOURCES_LINK : string :=
  "https://raw.githubusercontent.com/cloudbase/"
  +:+ "cloudbase-init-ci/master/argus/resources".

Section ConfigurationParser_sections.

Variable parser : Type.
Variable getboolean : parser -> string -> string -> exn + bool.
Variable getint : parser -> string -> string -> exn + Z.
Variable get : parser -> string -> string -> exn + string.

Definition ConfigurationParser_argus (p : parser) : Prog argus :=
  resources <- _get_default getboolean getint get None p "argus" "resources" RESOURCES_LINK ;;
  pause <- lift (getboolean p "argus" "pause") ;;
  file_log <- _get_default_or get p "argus" "file_log" tt ;;
  log_format <- _get_default_or get p "argus" "log_format" tt ;;
  dns_nameservers <- _get_default_or get p "argus" "dns_nameservers"
                       ["8.8.8.8"; "8.8.4.4"] ;;
  let dns_nameservers :=
    match dns_nameservers with
    | inr l => l
    | inl s => str_split "," s
    end in
  output_directory <- _get_default_or get p "argus" "output_directory" tt ;;
  build <- _get_default getboolean getint get None p "argus" "build" "Beta" ;;
  arch <- _get_default getboolean getint get None p "argus" "arch" "x64" ;;
  patch_install <- _get_default_or get p "argus" "patch_install" tt ;;
  git_command <- _get_default_or get p "argus" "git_command" tt ;;
  Ret {| resources := resources; pause := pause;
         file_log := str_or_None file_log;
         log_format := str_or_None log_format;
         dns_nameservers := dns_nameservers;
         output_directory := str_or_None output_directory;
         build := build; arch := arch;
         patch_install := str_or_None patch_install;
         git_command := str_or_None git_command |}.

End ConfigurationParser_sections.

(** What a reader gives or, for a missing option, the default. *)
Definition or_default {T : Type} (r : exn + T) (default : T) : T :=
  match r with inr v => v | inl _ => default end.

(** A reader's answer for an option that is set or simply missing. *)
Definition set_or_missing {T : Type} (r : exn + T) : Prop :=
  forall e, r = inl e -> e = NoOptionError.

(** A string without the character [a]. *)
Fixpoint without (a : ascii) (s : string) : Prop :=
  match s with
  | EmptyString => True
  | String b s' => b <> a /\ without a s'
  end.

(** A string without whitespace at either end. *)
Definition stripped (s : string) : Prop := str_strip s = s.

(** An item of a list option as one writes it: not empty, no comma, no
    whitespace. *)
Fixpoint plain (s : string) : Prop :=
  match s with
  | EmptyString => True
  | String b s' => b <> ","%char /\ is_space b = false /\ plain s'
  end.

(** A string that starts with no whitespace. *)
Definition no_space_first (s : string) : Prop :=
  match s with
  | EmptyString => True
  | String a _ => is_space a = false
  end.

(** A string of spaces and tabs. *)
Fixpoint blank (s : string) : Prop :=
  match s with
  | EmptyString => True
  | String b s' => (b = " "%char \/ b = "009"%char) /\ blank s'
  end.

(** [y] is the item [x] with blanks around it. *)
Definition padded (x y : string) : Prop :=
  exists l r, blank l /\ blank r /\ y = (l +:+ x +:+ r).

(** A parser is three readers.  These are the readers of a configuration
    file whose [debug] section is empty and whose [argus] section sets
    [pause] and the name servers only; the last one is the reader of
    booleans of a file without [debug] section. *)
Definition no_debug_options_getboolean (_ : unit) (section option : string) : exn + bool :=
  if decide (section = "debug") then inl NoOptionError else inr true.

Definition no_debug_options_getint (_ : unit) (section option : string) : exn + Z :=
  inl NoOptionError.

Definition no_debug_options_get (_ : unit) (section option : string) : exn + string :=
  if decide (section = "debug") then inl NoOptionError
  else if decide (option = "dns_nameservers") then inr "10.0.0.1, 10.0.0.2"
  else if decide (section = "argus") then inl NoOptionError
  else inr option.

Definition no_debug_section_getboolean (_ : unit) (section option : string) : exn + bool :=
  if decide (section = "debug") then inl NoSectionError else inr true.

(** The reader that [_get_default] calls for a [parser_type]. *)
Definition reader_of {parser : Type}
    (getboolean : parser -> string -> string -> exn + bool)
    (getint : parser -> string -> string -> exn + Z)
    (get : parser -> string -> string -> exn + string)
    (t : option parser_type) (p : parser) (section option : string)
    : exn + value_of t :=
  match t return exn + value_of t with
  | Some BOOL => getboolean p section option
  | Some INT => getint p section option
  | None => get p section option
  end.

(** What [_get_default] does with a reader's answer. *)
Definition defaulted {T : Type} (r : exn + T) (default : T) : Status T :=
  match r with
  | inr v => Returned v
  | inl NoOptionError => Returned default
  | inl e => Raised e
  end.

(** ** argus/util.py: [run_once], [cached_property], [get_command] *)

(** *** [run_once] *)

(** The two dictionaries that [run_once] keeps in its default arguments,
    shared by all the functions it decorates; the keys are the function
    objects, here their identities. *)
Record memo : Type := {
  state : gmap nat pyval;
  errors : gmap nat exn }.

(** A function object: its identity and what it does. *)
Record function_object : Type := {
  fid : nat;
  func : function }.

(** [try: v = p / except Exception: ...], the outcome as a value. *)
Definition attempt {A : Type} (p : Prog A) : Prog (exn + A) :=
  try_except (v <- p ;; Ret (inr v)) (fun e => Some (Ret (inl e))).

(** The [wrapper] that [run_once(func)] returns, called with [args] and
    [kwargs].  The dictionaries are
    passed in and handed back; what the wrapper raises is handed back as a
    left value, so that the dictionaries as the raise leaves them are not
    lost. *)
Definition run_once (f : function_object) (m : memo) (args : list pyval)
    (kwargs : list (string * pyval)) : Prog (memo * (exn + pyval)) :=
  match errors m !! fid f with
  | Some e => Ret (m, inl e)
  | None =>
      match state m !! fid f with
      | Some result => Ret (m, inr result)
      | None =>
          r <- attempt (call (func f) args kwargs) ;;
          match r with
          | inr result =>
              Ret ({| state := <[fid f := result]> (state m);
                      errors := errors m |}, inr result)
          | inl e =>
              Ret ({| state := state m;
                      errors := <[fid f := e]> (errors m) |}, inl e)
          end
      end
  end.

(** No function is in both dictionaries. *)
Definition coherent (m : memo) : Prop :=
  forall k, state m !! k = None \/ errors m !! k = None.

(** *** [cached_property] *)

(** An instance: its [__dict__]. *)
Record instance : Type := { __dict__ : gmap string pyval }.

(** A [cached_property] object. *)
Record cached_property : Type := {
  cp_func : instance -> Prog pyval;
  cp_name : string }.

(** [cached_property.__init__(func, name=None)]: an empty name counts as no
    name. *)
Definition cached_property__init__ (f : instance -> Prog pyval)
    (func_name : string) (name : option string) : cached_property :=
  {| cp_func := f;
     cp_name := match name with
                | Some (String a n) => String a n
                | _ => func_name
                end |}.

(** [cached_property.__get__(instance)] for an instance that is not
    [None]: the result and the instance with its new [__dict__]. *)
Definition cached_property__get__ (self : cached_property) (inst : instance)
    : Prog (pyval * instance) :=
  result <- cp_func self inst ;;
  Ret (result, {| __dict__ := <[cp_name self := result]> (__dict__ inst) |}).

(** [instance.attr] where the class holds the [cached_property] [self] under
    the name [attr]: the descriptor has no [__set__], so an entry of the
    instance's [__dict__] goes first. *)
Definition getattr (self : cached_property) (attr : string) (inst : instance)
    : Prog (pyval * instance) :=
  match __dict__ inst !! attr with
  | Some v => Ret (v, inst)
  | None => cached_property__get__ self inst
  end.

(** *** [get_command] *)

Definition CMD : string := "cmd".
Definition BAT_SCRIPT : string := "bat".
Definition POWERSHELL : string := "powershell".
Definition POWERSHELL_SCRIPT : string := "powershell_script".
Definition POWERSHELL_SCRIPT_RESTRICTED : string := "powershell_script_restricted".
Definition POWERSHELL_SCRIPT_ALLSIGNED : string := "powershell_script_allsigned".
Definition POWERSHELL_SCRIPT_REMOTESIGNED : string := "powershell_script_remotesigned".
Definition POWERSHELL_SCRIPT_UNRESTRICTED : string := "powershell_script_unrestricted".
Definition POWERSHELL_SCRIPT_BYPASS : string := "powershell_script_bypass".
Definition POWERSHELL_SCRIPT_UNDEFINED : string := "powershell_script_undefined".

Definition _get_command_powershell_script (command : string) : string :=
  "powershell -File " +:+ command.

(** [_get_cmd_with_privileges(policy)]: [None] and the empty string are no
    policy. *)
Definition _get_cmd_with_privileges (policy : option string) : string -> string :=
  match policy with
  | Some (String a p) =>
      fun command =>
        "powershell -ExecutionPolicy " +:+ String a p +:+ " -File " +:+ command
  | _ => _get_command_powershell_script
  end.

Section get_command.

(** [base64.b64encode(command.encode("UTF-16LE"))], as text. *)
Variable b64encode_utf16le : string -> string.

Definition _get_command_powershell (command : string) : string :=
  ("powershell -Noninteractive -NoLogo" +:+ " -EncodedCommand ")
  +:+ b64encode_utf16le command.

Definition COMMAND_MODIFIERS : gmap string (string -> string) :=
  <[POWERSHELL := _get_command_powershell]>
  (<[POWERSHELL_SCRIPT := _get_command_powershell_script]>
  (<[POWERSHELL_SCRIPT_ALLSIGNED := _get_cmd_with_privileges (Some "AllSigned")]>
  (<[POWERSHELL_SCRIPT_REMOTESIGNED := _get_cmd_with_privileges (Some "RemoteSigned")]>
  (<[POWERSHELL_SCRIPT_UNRESTRICTED := _get_cmd_with_privileges (Some "Unrestricted")]>
  (<[POWERSHELL_SCRIPT_BYPASS := _get_cmd_with_privileges (Some "Bypass")]>
  (<[POWERSHELL_SCRIPT_UNDEFINED := _get_cmd_with_privileges (Some "Undefined")]>
   ∅)))))).

(** [get_command(command, command_type=None)]; [None] is no key of the
    table. *)
Definition get_command (command : string) (command_type : option string) : string :=
  let modifier :=
    match command_type with
    | Some t => default (fun command => command) (COMMAND_MODIFIERS !! t)
    | None => fun command => command
    end in
  modifier command.

End get_command.

(** The keys of [COMMAND_MODIFIERS]. *)
Definition modified_types : list string :=
  [POWERSHELL; POWERSHELL_SCRIPT; POWERSHELL_SCRIPT_ALLSIGNED;
   POWERSHELL_SCRIPT_REMOTESIGNED; POWERSHELL_SCRIPT_UNRESTRICTED;
   POWERSHELL_SCRIPT_BYPASS; POWERSHELL_SCRIPT_UNDEFINED].

(** For the scenarios: a function object that logs and fails, three states
    of the dictionaries, and two properties that log and return 7, the
    second one created without a name. *)
Definition failing_object : function_object := {| fid := 2; func := failing |}.

Definition empty_memo : memo := {| state := ∅; errors := ∅ |}.

Definition answer_cached : memo :=
  {| state := {[ 1 := PInt 42 ]}; errors := ∅ |}.

Definition failed_after_answer : memo :=
  {| state := {[ 1 := PInt 42 ]}; errors := {[ 2 := IOError ]} |}.

Definition get_remote_client (_ : instance) : Prog pyval :=
  logging.info LOG "connecting" ;; Ret (PInt 7).

Definition remote_client : cached_property :=
  cached_property__init__ get_remote_client "get_remote_client"
    (Some "remote_client").

Definition unnamed_remote_client : cached_property :=
  cached_property__init__ get_remote_client "get_remote_client" None.

Definition no_attributes : instance := {| __dict__ := ∅ |}.

(** ** argus/util.py: [next_ip] and [cidr2netmask] *)

(** What the two functions raise: [IndexError], the [ValueError] of [int],
    the [OverflowError] of a repeat count that is no index-sized integer,
    the [MemoryError] of a string that is too long for the machine,
    [struct.error] and [socket.error]. *)
Inductive net_exn : Type :=
| IndexError
| IntValueError
| OverflowError
| MemoryError
| struct_error
| socket_error.

Definition and_then {E A B : Type} (r : E + A) (f : A -> E + B) : E + B :=
  match r with
  | inl e => inl e
  | inr a => f a
  end.

(** The packed form of an IPv4 address: four bytes, the first one first. *)
Definition packed : Type := (Byte.byte * Byte.byte * Byte.byte * Byte.byte)%type.

Local Open Scope Z_scope.

Definition Z_of_byte (b : Byte.byte) : Z := Z.of_N (Byte.to_N b).

(** The byte of the eight low bits. *)
Definition byte_of_Z (z : Z) : Byte.byte :=
  default Byte.x00 (Byte.of_N (Z.to_N (z mod 256))).

(** [struct.pack("!L", number)]: an unsigned 32-bit number in network byte
    order; a number out of range is refused. *)
Definition struct_pack (number : Z) : net_exn + packed :=
  if (0 <=? number) && (number <? 2 ^ 32) then
    inr (byte_of_Z (number / 2 ^ 24), byte_of_Z (number / 2 ^ 16),
         byte_of_Z (number / 2 ^ 8), byte_of_Z number)
  else inl struct_error.

(** [struct.unpack("!L", data)[0]] *)
Definition struct_unpack (data : packed) : Z :=
  let '(b3, b2, b1, b0) := data in
  Z_of_byte b3 * 2 ^ 24 + Z_of_byte b2 * 2 ^ 16 + Z_of_byte b1 * 2 ^ 8
  + Z_of_byte b0.

(** [str(n)] of a byte. *)
Definition str_of_byte (b : Byte.byte) : string :=
  DecimalString.NilEmpty.string_of_uint (N.to_uint (Byte.to_N b)).

(** [socket.inet_ntoa(data)]: dotted decimal. *)
Definition inet_ntoa (data : packed) : string :=
  let '(b3, b2, b1, b0) := data in
  str_of_byte b3 +:+ "." +:+ str_of_byte b2 +:+ "." +:+ str_of_byte b1
  +:+ "." +:+ str_of_byte b0.

(** [a * n] of a string of one character: the empty string for a count
    below one.  A count that is no index-sized integer is refused with
    [OverflowError], and a string that the interpreter gets no memory for
    with [MemoryError].  [memory] is the length of the longest string that
    the interpreter can build; it depends on the machine. *)
Definition str_mul (maxsize memory : Z) (a : ascii) (n : Z) : net_exn + string :=
  if (- maxsize - 1 <=? n) && (n <=? maxsize) then
    if n <=? memory then inr (str_repeat a (Z.to_nat n))
    else inl MemoryError
  else inl OverflowError.

(** [a + b] of two strings: a new string, unless one of the two is empty. *)
Definition str_add (memory : Z) (a b : string) : net_exn + string :=
  match a, b with
  | EmptyString, _ => inr b
  | _, EmptyString => inr a
  | _, _ =>
      if Z.of_N (len a) + Z.of_N (len b) <=? memory then inr (a +:+ b)
      else inl MemoryError
  end.

(** [int(s, 2)] of a string of binary digits, the only strings that
    [cidr2netmask] hands over.  The number is shorter than the string, so
    it is built where the string was. *)
Fixpoint binary_value (acc : Z) (s : string) : option Z :=
  match s with
  | EmptyString => Some acc
  | String a s' =>
      if Ascii.eqb a "0" then binary_value (2 * acc) s'
      else if Ascii.eqb a "1" then binary_value (2 * acc + 1) s'
      else None
  end.

Definition int_2 (s : string) : net_exn + Z :=
  match s with
  | EmptyString => inl IntValueError
  | _ => match binary_value 0 s with
         | Some n => inr n
         | None => inl IntValueError
         end
  end.

Section network.

(** [socket.inet_aton], [None] where it raises [socket.error]; [int] of a
    string, [None] where it raises [ValueError]; [sys.maxsize]; the length
    of the longest string that the machine has memory for. *)
Variable inet_aton : string -> option packed.
Variable int : string -> option Z.
Variable maxsize : Z.
Variable memory : Z.

(** [next_ip(ip, step)]; [step] is 1 when it is left out. *)
Definition next_ip (ip : string) (step : Z) : net_exn + string :=
  match inet_aton ip with
  | None => inl socket_error
  | Some data =>
      let number := struct_unpack data in
      let number := number + step in
      and_then (struct_pack number) (fun data' => inr (inet_ntoa data'))
  end.

Definition cidr2netmask (cidr : string) : net_exn + string :=
  match str_split "/" cidr !! 1%nat with
  | None => inl IndexError
  | Some piece =>
      match int piece with
      | None => inl IntValueError
      | Some mask_length =>
          and_then (str_mul maxsize memory "1" mask_length) (fun ones =>
          and_then (str_mul maxsize memory "0" (32 - mask_length)) (fun zeros =>
          and_then (str_add memory ones zeros) (fun mask_bits =>
          and_then (int_2 mask_bits) (fun mask_number =>
          and_then (struct_pack mask_number) (fun mask_bytes =>
          inr (inet_ntoa mask_bytes))))))
      end
  end.

End network.

Local Close Scope Z_scope.

(** For the scenarios: [int] on plain decimal digits with a minus sign or
    without, and [inet_aton] on three addresses. *)
Definition int_of_digits (s : string) : option Z :=
  match s with
  | String "-" s' =>
      match s' with
      | EmptyString => None
      | _ => option_map (fun d => (- Z.of_N (N.of_uint d))%Z) (DecimalString.NilEmpty.uint_of_string s')
      end
  | EmptyString => None
  | _ => option_map (fun d => Z.of_N (N.of_uint d)) (DecimalString.NilEmpty.uint_of_string s)
  end.

Definition three_addresses (s : string) : option packed :=
  if decide (s = "10.0.0.255") then Some (Byte.x0a, Byte.x00, Byte.x00, Byte.xff)
  else if decide (s = "10.0.1.0") then Some (Byte.x0a, Byte.x00, Byte.x01, Byte.x00)
  else if decide (s = "255.255.255.255") then Some (Byte.xff, Byte.xff, Byte.xff, Byte.xff)
  else None.


(** * Properties *)

Unset Implicit Arguments.

(** ** Running programs: the rules of [run] *)

Section run_rules.

Context {A B : Type}.

Lemma run_bind (p : Prog A) (f : A -> Prog B) (w : World) :
  run (bind p f) w =
  match run p w with
  | (Returned a, w') => run (f a) w'
  | (Raised e, w') => (Raised e, w')
  | (Blocked k, w') => (Blocked (bind k f), w')
  | (Truncated, w') => (Truncated, w')
  end.
Proof.
  revert w. induction p as [a | e | | R o k IH]; intros w; simpl; try reflexivity.
  destruct (exec o w) as [[r w'] |]; [apply IH | reflexivity].
Qed.

Lemma run_try_except (p : Prog A) (h : exn -> option (Prog A)) (w : World) :
  run (try_except p h) w =
  match run p w with
  | (Raised e, w') =>
      match h e with Some q => run q w' | None => (Raised e, w') end
  | (Blocked k, w') => (Blocked (try_except k h), w')
  | r => r
  end.
Proof.
  revert w. induction p as [a | e | | R o k IH]; intros w; simpl; try reflexivity.
  - destruct (h e); reflexivity.
  - destruct (exec o w) as [[r w'] |]; [apply IH | reflexivity].
Qed.

End run_rules.

Section primitive_rules.

Variable w : World.

Lemma run_Client_accepted (address : string * Z) (key : string) :
  listening w = Some (address.1, address.2, key) ->
  run (connection.Client address key) w
  = (Returned {| cid := fresh w; held_by := Subject |}, connected w).
Proof.
  intros H. destruct address as [i p]. unfold connection.Client. simpl in *.
  rewrite H. rewrite !decide_True by reflexivity. reflexivity.
Qed.

Lemma run_Client_rejected (address : string * Z) (key key' : string) :
  listening w = Some (address.1, address.2, key') ->
  key' <> key ->
  run (connection.Client address key) w = (Raised AuthenticationError, w).
Proof.
  intros H Hk. destruct address as [i p]. unfold connection.Client. simpl in *.
  rewrite H. rewrite decide_True by reflexivity.
  rewrite decide_False by assumption. reflexivity.
Qed.

Lemma run_send_bytes (conn : Connection) (buf : string) (ch : chan) :
  chans w !! cid conn = Some ch ->
  closed_by (held_by conn) ch = false ->
  run (connection.send_bytes conn buf) w = (Returned tt, sent conn buf ch w).
Proof.
  intros Hc Ho. unfold connection.send_bytes. cbn [run exec].
  rewrite Hc, Ho. reflexivity.
Qed.


Lemma run_recv_bytes (conn : Connection) (buf : string) (q : list string) (ch : chan) :
  chans w !! cid conn = Some ch ->
  closed_by (held_by conn) ch = false ->
  queue_in (held_by conn) ch = buf :: q ->
  run (connection.recv_bytes conn) w = (Returned buf, received conn buf q ch w).
Proof.
  intros Hc Ho Hq. unfold connection.recv_bytes. cbn [run exec].
  rewrite Hc, Ho, Hq. reflexivity.
Qed.

Lemma run_recv_bytes_blocks (conn : Connection) (ch : chan) :
  chans w !! cid conn = Some ch ->
  closed_by (held_by conn) ch = false ->
  queue_in (held_by conn) ch = [] ->
  closed_by (peer (held_by conn)) ch = false ->
  run (connection.recv_bytes conn) w = (Blocked (connection.recv_bytes conn), w).
Proof.
  intros Hc Ho Hq Hp. unfold connection.recv_bytes. cbn [run exec].
  rewrite Hc, Ho, Hq, Hp. reflexivity.
Qed.

Lemma run_recv_bytes_eof (conn : Connection) (ch : chan) :
  chans w !! cid conn = Some ch ->
  closed_by (held_by conn) ch = false ->
  queue_in (held_by conn) ch = [] ->
  closed_by (peer (held_by conn)) ch = true ->
  run (connection.recv_bytes conn) w = (Raised EOFError, w).
Proof.
  intros Hc Ho Hq Hp. unfold connection.recv_bytes. cbn [run exec].
  rewrite Hc, Ho, Hq, Hp. reflexivity.
Qed.

Lemma run_close (conn : Connection) (ch : chan) :
  chans w !! cid conn = Some ch ->
  run (connection.close conn) w = (Returned tt, closed conn ch w).
Proof.
  intros Hc. unfold connection.close. cbn [run exec]. rewrite Hc. reflexivity.
Qed.

Lemma run_accept (l : ListenerHandle) (c : nat) (rest : list nat) :
  backlog w = c :: rest ->
  run (connection.accept l) w
  = (Returned {| cid := c; held_by := Console |},
     emit [EAccept c] (set_backlog rest w)).
Proof.
  intros Hb. unfold connection.accept. cbn [run exec]. rewrite Hb. reflexivity.
Qed.

Lemma run_accept_blocks (l : ListenerHandle) :
  backlog w = [] ->
  run (connection.accept l) w = (Blocked (connection.accept l), w).
Proof.
  intros Hb. unfold connection.accept. cbn [run exec]. rewrite Hb. reflexivity.
Qed.

Lemma run_raw_input (prompt line : string) (rest : list string) :
  stdin w = line :: rest ->
  run (raw_input prompt) w
  = (Returned line, emit [EPrompt prompt] (set_stdin rest w)).
Proof.
  intros Hs. unfold raw_input. cbn [run exec]. rewrite Hs. reflexivity.
Qed.

Lemma run_log (l : Logger) (lvl : level) (msg : string) :
  run (Vis (OpLog l lvl msg) Ret) w = (Returned PNone, emit [ELog l lvl msg] w).
Proof. reflexivity. Qed.

End primitive_rules.

Ltac stepped := cbv beta iota.

(** Two worlds are equal when their seven components are. *)
Lemma World_eq (w1 w2 : World) :
  listening w1 = listening w2 ->
  chans w1 = chans w2 ->
  backlog w1 = backlog w2 ->
  fresh w1 = fresh w2 ->
  stdin w1 = stdin w2 ->
  files w1 = files w2 ->
  trace w1 = trace w2 ->
  w1 = w2.
Proof. destruct w1, w2. simpl. intros. subst. reflexivity. Qed.

Ltac world_eq :=
  apply World_eq;
  cbn [listening chans backlog fresh stdin files trace
       emit set_chan set_backlog set_fresh set_stdin set_listening
       connected sent received closed requested answered
       after_answer after_rendezvous served_resume read_only declined
       cid held_by next_client peer queue_in closed_by set_queue_in
       set_closed_by to_console to_subject closed_by_subject closed_by_console
       empty_chan];
  rewrite ?insert_insert_eq, <- ?app_assoc;
  try reflexivity.

(** ** The subject: [BasicDebugger] *)

Section pause.

Variable d : BasicDebugger.t.

Lemma run_new_client (w : World) :
  accepts w d ->
  run (BasicDebugger._new_client d) w = (Returned (next_client w), connected w).
Proof.
  intros H. unfold BasicDebugger._new_client. rewrite run_try_except.
  rewrite run_Client_accepted by exact H. reflexivity.
Qed.

(** With the secret accepted, [pause] connects, sends the type tag and the
    text, whatever its length, and blocks in its [recv_bytes]. *)
Lemma pause_requests (msg : string) (w : World) :
  accepts w d ->
  run (BasicDebugger.pause d msg) w
  = (Blocked (awaiting (next_client w)), requested msg w).
Proof.
  intros Ha. unfold BasicDebugger.pause.
  rewrite run_bind, run_new_client by exact Ha. stepped.
  rewrite run_bind. unfold BasicDebugger._notice_server.
  rewrite run_try_except, run_bind.
  erewrite run_send_bytes;
    [ | simpl; apply lookup_insert_eq | reflexivity ].
  stepped. rewrite run_bind.
  erewrite run_send_bytes;
    [ | simpl; apply lookup_insert_eq | reflexivity ].
  stepped. simpl run at 1. stepped.
  rewrite run_bind.
  erewrite run_recv_bytes_blocks;
    [ | simpl; apply lookup_insert_eq | reflexivity ..].
  stepped. f_equal. world_eq.
Qed.

End pause.

Section awaiting.

Variables (c : nat) (w : World) (ch : chan).
Hypothesis Hch : chans w !! c = Some ch.
Hypothesis Hopen : closed_by_subject ch = false.

Let client : Connection := {| cid := c; held_by := Subject |}.

(** Whatever message is there, [pause] takes it and returns. *)
Lemma awaiting_message (r : string) (q : list string) :
  to_subject ch = r :: q ->
  run (awaiting client) w = (Returned PNone, answered c r q ch w).
Proof.
  intros Hq. unfold awaiting. rewrite run_bind.
  erewrite run_recv_bytes; [ | exact Hch | exact Hopen | exact Hq ].
  stepped. unfold answered. case_decide as Hr.
  - rewrite run_bind.
    erewrite run_close; [ | simpl; apply lookup_insert_eq ].
    stepped. simpl run. f_equal.
    rewrite bool_decide_eq_true_2 by exact Hr. world_eq.
  - simpl run. f_equal.
    rewrite bool_decide_eq_false_2 by exact Hr. rewrite <- Hopen. world_eq.
Qed.

(** With nothing there and the other end closed, [recv_bytes] raises
    [EOFError] out of [pause]; nothing is closed. *)
Lemma awaiting_eof :
  to_subject ch = [] ->
  closed_by_console ch = true ->
  run (awaiting client) w = (Raised EOFError, w).
Proof.
  intros Hq Hc. unfold awaiting. rewrite run_bind.
  erewrite run_recv_bytes_eof; [ | exact Hch | exact Hopen | exact Hq | exact Hc ].
  reflexivity.
Qed.

(** With nothing there and the other end open, [pause] stays blocked. *)
Lemma awaiting_blocks :
  to_subject ch = [] ->
  closed_by_console ch = false ->
  run (awaiting client) w = (Blocked (awaiting client), w).
Proof.
  intros Hq Hc. unfold awaiting. rewrite run_bind.
  erewrite run_recv_bytes_blocks; [ | exact Hch | exact Hopen | exact Hq | exact Hc ].
  reflexivity.
Qed.

End awaiting.


(** ** Programs in an environment: the rules of [run_with] *)

Lemma run_with_bind {A B : Type} (env : list (World -> World)) (p : Prog A)
    (f : A -> Prog B) (w : World) :
  run_with env (bind p f) w =
  match run_with env p w with
  | (Returned a, w', env') => run_with env' (f a) w'
  | (Raised e, w', env') => (Raised e, w', env')
  | (Blocked k, w', env') => (Blocked (bind k f), w', env')
  | (Truncated, w', env') => (Truncated, w', env')
  end.
Proof.
  revert p w. induction env as [ | e env IH ]; intros p w.
  - simpl. rewrite run_bind.
    destruct (run p w) as [[a | x | k | ] w1]; reflexivity.
  - simpl. rewrite run_bind.
    destruct (run p w) as [[a | x | k | ] w1]; try reflexivity.
    apply IH.
Qed.

Lemma run_with_returned {A : Type} (env : list (World -> World)) (p : Prog A)
    (w w' : World) (a : A) :
  run p w = (Returned a, w') -> run_with env p w = (Returned a, w', env).
Proof. intros H. destruct env; cbn [run_with]; rewrite H; reflexivity. Qed.

Lemma deliver_sent (c : nat) (buf : string) (ch : chan) (w : World) :
  chans w !! c = Some ch ->
  closed_by_console ch = false ->
  deliver c buf w = sent {| cid := c; held_by := Console |} buf ch w.
Proof.
  intros Hc Ho. unfold deliver. cbn [exec cid held_by].
  rewrite Hc. cbn [closed_by]. rewrite Ho. reflexivity.
Qed.

Lemma len_str_repeat (a : ascii) (n : nat) : String.length (str_repeat a n) = n.
Proof. induction n as [ | n IH ]; simpl; [ reflexivity | now rewrite IH ]. Qed.



(** ** One exchange between [pause] and the console *)

Section rendezvous.

Variables (d : BasicDebugger.t) (msg : string) (w : World).
Hypothesis Haccepts : accepts w d.

Lemma pause_answered (r : string) (rest : list (World -> World)) :
  run_with (deliver (fresh w) r :: rest) (BasicDebugger.pause d msg) w
  = (Returned PNone, after_answer msg r w, rest).
Proof.
  cbn [run_with]. rewrite pause_requests by assumption. stepped.
  erewrite deliver_sent;
    [ | simpl; apply lookup_insert_eq | reflexivity ].
  apply run_with_returned.
  erewrite (awaiting_message (fresh w));
    [ | simpl; apply lookup_insert_eq | reflexivity | reflexivity ].
  f_equal. world_eq.
Qed.

Lemma pause_rendezvous (rest : list (World -> World)) :
  run_with (deliver (fresh w) BasicListener._RESUME :: rest)
    (BasicDebugger.pause d msg) w
  = (Returned PNone, after_rendezvous msg w, rest).
Proof.
  rewrite pause_answered. reflexivity.
Qed.


End rendezvous.



(** ** The claims about [BasicDebugger.pause] *)


(** C2.  What the code does with the message it receives after its pause
    request: whatever the message [r] is, [pause] takes it and returns
    [None] to its caller, once, without another [recv_bytes]; the message
    decides only whether the subject's end of the connection is closed
    first, which happens exactly for "resume".  So a message other than
    "resume" resumes the caller as well. *)
Theorem pause_returns_on_any_answer (d : BasicDebugger.t) (msg r : string) (w : World) :
  accepts w d ->
  run_with [deliver (fresh w) r] (BasicDebugger.pause d msg) w
  = (Returned PNone, after_answer msg r w, [])
  /\ (open_at Subject (fresh w) (after_answer msg r w)
      <-> r <> BasicDebugger._RESUME).
Proof.
  intros Ha. split.
  - apply pause_answered; assumption.
  - unfold open_at, after_answer; simpl. rewrite lookup_insert_eq. split.
    + intros (ch & [= <-] & Hc). simpl in Hc.
      intros ->. discriminate Hc.
    + intros Hne. eexists. split; [ reflexivity | ]. simpl.
      apply bool_decide_eq_false_2. exact Hne.
Qed.

Lemma pause_returns_on_any_answer_witness :
  run_with [deliver 0 "stop"]
    (BasicDebugger.pause subject "before method install_cbinit") console_listening
  = (Returned PNone,
     after_answer "before method install_cbinit" "stop" console_listening, [])
  /\ open_at Subject 0
       (after_answer "before method install_cbinit" "stop" console_listening).
Proof.
  destruct (pause_returns_on_any_answer subject
              "before method install_cbinit" "stop" console_listening)
    as [H1 H2].
  - reflexivity.
  - split; [ exact H1 | apply H2; discriminate ].
Defined.




(** C4.  What the code does when the listening side rejects the secret:
    [_new_client] logs the failure and then raises the value that
    [Logger.exception] returned, which is [None]; so [pause] fails with
    [TypeError], not with the [AuthenticationError] it caught.  The failure
    comes before anything is sent: the world has changed by the log record
    only. *)
Theorem pause_rejected_raises_TypeError (d : BasicDebugger.t) (msg : string) (w : World) :
  rejects w d ->
  run (BasicDebugger.pause d msg) w
  = (Raised TypeError,
     emit [ELog (BasicDebugger._log d) EXCEPTION
             "AuthenticationError - Client creationfailed. Check authentication key!"]
       w).
Proof.
  intros (key & Hk & Hne). unfold BasicDebugger.pause.
  rewrite run_bind. unfold BasicDebugger._new_client.
  rewrite run_try_except.
  erewrite run_Client_rejected by eassumption.
  stepped. rewrite run_bind. unfold logging.exception.
  rewrite run_log. reflexivity.
Qed.

Lemma pause_rejected_raises_TypeError_witness :
  run (BasicDebugger.pause intruder "before method install_cbinit") console_listening
  = (Raised TypeError,
     emit [ELog LOG EXCEPTION
             "AuthenticationError - Client creationfailed. Check authentication key!"]
       console_listening).
Proof.
  apply (pause_rejected_raises_TypeError intruder
           "before method install_cbinit" console_listening).
  exists "authkey". split; [ reflexivity | discriminate ].
Defined.




(** ** The decorator [wait] *)

Lemma returns_only_bind {A B : Type} (P : B -> Prop) (p : Prog A) (f : A -> Prog B) :
  (forall a, returns_only P (f a)) -> returns_only P (bind p f).
Proof.
  intros Hf. induction p as [ a | e | | R o k IH ]; simpl; auto.
Qed.

Lemma returns_only_run {A : Type} (P : A -> Prop) (p : Prog A) (w w' : World)
    (st : Status A) :
  returns_only P p ->
  run p w = (st, w') ->
  match st with
  | Returned v => P v
  | Blocked k => returns_only P k
  | _ => True
  end.
Proof.
  revert w. induction p as [ a | e | | R o k IH ]; intros w Hp; simpl.
  - intros [= <- _]. exact Hp.
  - intros [= <- _]. exact I.
  - intros [= <- _]. exact I.
  - destruct (exec o w) as [[r w1] | ].
    + apply IH. apply Hp.
    + intros [= <- _]. exact Hp.
Qed.

Lemma returns_only_run_with {A : Type} (P : A -> Prop) (env : list (World -> World))
    (p : Prog A) (w w' : World) (v : A) (rest : list (World -> World)) :
  returns_only P p ->
  run_with env p w = (Returned v, w', rest) ->
  P v.
Proof.
  revert p w. induction env as [ | e env IH ]; intros p w Hp; cbn [run_with];
    destruct (run p w) as [st w1] eqn:E;
    pose proof (returns_only_run P p w _ _ Hp E) as Hst;
    destruct st as [ a | x | k | ]; try (intros [=]; subst; assumption).
  apply IH. exact Hst.
Qed.

Lemma wait_returns_only_None {D : Type} `{BaseDebugger D} (self : D)
    (func : function) (args : list pyval) (kwargs : list (string * pyval)) :
  returns_only (fun v => v = PNone) (wait self func args kwargs).
Proof.
  unfold wait. repeat (apply returns_only_bind; intros ?). reflexivity.
Qed.

Section wait_interactive.

Variables (d : BasicDebugger.t) (func : function).
Variables (args : list pyval) (kwargs : list (string * pyval)).

Let before_msg : string := "We are before method " +:+ __name__ func +:+ "!".
Let after_msg : string := "We are after method " +:+ __name__ func +:+ "!".

Lemma wait_two_rendezvous (w0 wb : World) (v : pyval) :
  accepts w0 d ->
  run (call func args kwargs) (after_rendezvous before_msg w0) = (Returned v, wb) ->
  accepts wb d ->
  run_with [deliver (fresh w0) BasicListener._RESUME;
            deliver (fresh wb) BasicListener._RESUME]
    (wait d func args kwargs) w0
  = (Returned PNone, after_rendezvous after_msg wb, []).
Proof.
  intros Ha Hf Ha'. unfold wait.
  cbn [_action_before_method _action_after_method BasicDebugger_BaseDebugger].
  unfold BasicDebugger._action_before_method, BasicDebugger._action_after_method.
  rewrite run_with_bind, run_with_bind.
  rewrite pause_rendezvous by assumption. stepped.
  rewrite (run_with_returned _ (Ret PNone) _ _ PNone eq_refl). stepped.
  rewrite run_with_bind.
  rewrite (run_with_returned _ _ _ _ _ Hf). stepped.
  rewrite run_with_bind, run_with_bind.
  rewrite pause_rendezvous by assumption. stepped.
  reflexivity.
Qed.
End wait_interactive.

(** C1, as amended.  For every operation and every argument list, the
    instrumented callable runs the before hook with the operation's name,
    then the operation on those arguments, then the after hook with the
    same name, each from the world that the one before has left, and then
    returns [None], whatever the operation returned.  This holds under any
    debugger and in any environment; the only value the call can return is
    [None].  Under the null debugger the call has the effects of the
    operation and no others; under [BasicDebugger], with both pauses
    resumed, the operation runs after the rendezvous for "before", and the
    rendezvous for "after" comes in the world that the operation has left. *)
Theorem wait_returns_None (func : function) (args : list pyval)
    (kwargs : list (string * pyval)) :
  (forall (D : Type) (H : BaseDebugger D) (self : D) env w v w' rest,
      run_with env (wait self func args kwargs) w = (Returned v, w', rest) ->
      v = PNone)
  /\ (forall (D : Type) (H : BaseDebugger D) (self : D)
             env w x w1 env1 v w2 env2 y w3 env3,
        run_with env (_action_before_method self (__name__ func)) w
        = (Returned x, w1, env1) ->
        run_with env1 (call func args kwargs) w1 = (Returned v, w2, env2) ->
        run_with env2 (_action_after_method self (__name__ func)) w2
        = (Returned y, w3, env3) ->
        run_with env (wait self func args kwargs) w = (Returned PNone, w3, env3))
  /\ (forall (self : EmptyDebugger.t) w v w',
        run (call func args kwargs) w = (Returned v, w') ->
        run (wait self func args kwargs) w = (Returned PNone, w'))
  /\ (forall (d : BasicDebugger.t) w0 wb v,
        accepts w0 d ->
        run (call func args kwargs)
          (after_rendezvous ("We are before method " +:+ __name__ func +:+ "!") w0)
        = (Returned v, wb) ->
        accepts wb d ->
        run_with [deliver (fresh w0) BasicListener._RESUME;
                  deliver (fresh wb) BasicListener._RESUME]
          (wait d func args kwargs) w0
        = (Returned PNone,
           after_rendezvous ("We are after method " +:+ __name__ func +:+ "!") wb,
           [])).
Proof.
  split; [ | split; [ | split ] ].
  - intros D H self env w v w' rest Hr.
    exact (returns_only_run_with _ env _ w w' v rest
             (wait_returns_only_None self func args kwargs) Hr).
  - intros D H self env w x w1 env1 v w2 env2 y w3 env3 Hb Hf Ha.
    unfold wait. rewrite run_with_bind, Hb. stepped.
    rewrite run_with_bind, Hf. stepped.
    rewrite run_with_bind, Ha. stepped.
    apply run_with_returned. reflexivity.
  - intros self w v w' Hf. unfold wait.
    cbn [_action_before_method _action_after_method EmptyDebugger_BaseDebugger].
    unfold EmptyDebugger._action_before_method, EmptyDebugger._action_after_method.
    cbn [bind]. rewrite run_bind, Hf. reflexivity.
  - intros d w0 wb v Ha Hf Ha'.
    exact (wait_two_rendezvous d func args kwargs w0 wb v Ha Hf Ha').
Qed.

Lemma wait_returns_None_witness :
  run_with [deliver 0 "resume"; deliver 1 "resume"]
    (wait subject answer [] []) console_listening
  = (Returned PNone,
     after_rendezvous "We are after method answer!"
       (after_rendezvous "We are before method answer!" console_listening),
     []).
Proof.
  apply (proj2 (proj2 (proj2 (wait_returns_None answer [] []))) subject
           console_listening
           (after_rendezvous "We are before method answer!" console_listening)
           (PInt 42)).
  - reflexivity.
  - reflexivity.
  - reflexivity.
Defined.

(** C1, the claim as written fails: the operation returns 42, the
    instrumented call returns [None]. *)
Lemma wait_drops_the_return_value :
  run (call answer [] []) console_listening
  = (Returned (PInt 42), console_listening)
  /\ run (wait EmptyDebugger.Build answer [] []) console_listening
     = (Returned PNone, console_listening)
  /\ PNone <> PInt 42.
Proof. split; [ reflexivity | split; [ reflexivity | discriminate ] ]. Qed.

(** C9.  One call of an instrumented operation under [BasicDebugger]: the
    subject first blocks in the pause that names the operation as a
    before-point, the operation not yet started; once the console has
    resumed it the operation runs on the original arguments; then comes the
    pause that names it as an after-point.  With both pauses resumed the call
    returns, and the trace is exactly: one rendezvous for "before", what the
    operation did, one rendezvous for "after". *)
Theorem wait_suspends_before_and_after (d : BasicDebugger.t) (func : function)
    (args : list pyval) (kwargs : list (string * pyval))
    (w0 wb : World) (v : pyval) (evs : list event) :
  let before_msg := "We are before method " +:+ __name__ func +:+ "!" in
  let after_msg := "We are after method " +:+ __name__ func +:+ "!" in
  accepts w0 d ->
  run (call func args kwargs) (after_rendezvous before_msg w0) = (Returned v, wb) ->
  trace wb = trace (after_rendezvous before_msg w0) ++ evs ->
  accepts wb d ->
  (exists k, run (wait d func args kwargs) w0 = (Blocked k, requested before_msg w0))
  /\ exists w3,
      run_with [deliver (fresh w0) BasicListener._RESUME;
                deliver (fresh wb) BasicListener._RESUME]
        (wait d func args kwargs) w0
      = (Returned PNone, w3, [])
      /\ trace w3 = trace w0 ++ rendezvous (fresh w0) before_msg
                             ++ evs
                             ++ rendezvous (fresh wb) after_msg.
Proof.
  intros before_msg after_msg Ha Hf Ht Ha'. split.
  - unfold wait.
    cbn [_action_before_method BasicDebugger_BaseDebugger].
    unfold BasicDebugger._action_before_method.
    rewrite !run_bind, pause_requests by assumption. stepped. eauto.
  - exists (after_rendezvous after_msg wb). split.
    + exact (wait_two_rendezvous d func args kwargs w0 wb v Ha Hf Ha').
    + simpl. rewrite Ht. simpl. rewrite <- !app_assoc. reflexivity.
Qed.

Lemma wait_suspends_before_and_after_witness :
  exists w3,
    run_with [deliver 0 "resume"; deliver 1 "resume"]
      (wait subject answer [] []) console_listening
    = (Returned PNone, w3, [])
    /\ trace w3 = rendezvous 0 "We are before method answer!"
                  ++ rendezvous 1 "We are after method answer!".
Proof.
  destruct (wait_suspends_before_and_after subject answer [] []
              console_listening
              (after_rendezvous "We are before method answer!" console_listening)
              (PInt 42) [])
    as (_ & w3 & H1 & H2).
  - reflexivity.
  - reflexivity.
  - symmetry. apply app_nil_r.
  - reflexivity.
  - exists w3. split; [ exact H1 | exact H2 ].
Defined.

(** ** The null debugger and the factory *)

(** C8.  Whatever the arguments and whatever the world, [pause],
    [_action_before_method] and [_action_after_method] of [EmptyDebugger]
    return [None] at once and leave the world, its trace included, as it
    was; they make no primitive call at all, so they use nothing of any
    environment either. *)
Theorem EmptyDebugger_does_nothing (self : EmptyDebugger.t) (args : list pyval)
    (func_name : string) (w : World) (env : list (World -> World)) :
  (run (EmptyDebugger.pause self args) w = (Returned PNone, w)
   /\ run (EmptyDebugger._action_before_method self func_name) w = (Returned PNone, w)
   /\ run (EmptyDebugger._action_after_method self func_name) w = (Returned PNone, w))
  /\ (run_with env (EmptyDebugger.pause self args) w = (Returned PNone, w, env)
      /\ run_with env (EmptyDebugger._action_before_method self func_name) w
         = (Returned PNone, w, env)
      /\ run_with env (EmptyDebugger._action_after_method self func_name) w
         = (Returned PNone, w, env)).
Proof.
  split; [ repeat split | ].
  repeat split; apply run_with_returned; reflexivity.
Qed.

(** With no option set in the [debug] section, the configuration is the
    default one, and its flag is off. *)
Lemma ConfigurationParser_debug_default (parser : Type)
    (getboolean : parser -> string -> string -> exn + bool)
    (getint : parser -> string -> string -> exn + Z)
    (get : parser -> string -> string -> exn + string)
    (p : parser) (w : World) :
  getboolean p "debug" "flag" = inl NoOptionError ->
  get p "debug" "ip" = inl NoOptionError ->
  getint p "debug" "port" = inl NoOptionError ->
  get p "debug" "authkey" = inl NoOptionError ->
  run (ConfigurationParser_debug getboolean getint get p) w
  = (Returned {| flag := false; ip := "127.0.0.1"; port := 5555;
                 authkey := "authkey" |}, w).
Proof.
  intros Hf Hi Hp Ha. unfold ConfigurationParser_debug, _get_default.
  rewrite Hf, Hi, Hp, Ha. reflexivity.
Qed.

(** The flag that [Debugger.get] tests is the boolean that [getboolean]
    read. *)
Lemma ConfigurationParser_debug_flag (parser : Type)
    (getboolean : parser -> string -> string -> exn + bool)
    (getint : parser -> string -> string -> exn + Z)
    (get : parser -> string -> string -> exn + string)
    (p : parser) (w w' : World) (b : bool) (config : debug) :
  getboolean p "debug" "flag" = inr b ->
  run (ConfigurationParser_debug getboolean getint get p) w = (Returned config, w') ->
  flag config = b.
Proof.
  intros Hf. unfold ConfigurationParser_debug, _get_default.
  rewrite Hf. cbn [lift try_except bind].
  destruct (get p "debug" "ip") as [[] | i]; cbn [lift try_except bind run];
    try discriminate;
    destruct (getint p "debug" "port") as [[] | n]; cbn [lift try_except bind run];
    try discriminate;
    destruct (get p "debug" "authkey") as [[] | a]; cbn [lift try_except bind run];
    try discriminate;
    intros [= <- _]; reflexivity.
Qed.

(** C7.  [Debugger.get] returns an [EmptyDebugger] whenever the flag is
    false and touches nothing then.  Whenever the flag is true (and the
    disclaimer file can be read) it reads the disclaimer, shows its text
    through the logger as a warning, and returns a [BasicDebugger] whose
    address, secret and logger are those of the same configuration. *)
Theorem Debugger_get_selects (config : debug) (log : Logger) (w : World) :
  (flag config = false ->
   run (Debugger.get (Debugger.__init__ config log)) w
   = (Returned (AnEmptyDebugger EmptyDebugger.Build), w))
  /\ (flag config = true ->
      forall text,
        files w !! "argus/debug/disclaimer.txt" = Some text ->
        exists d,
          run (Debugger.get (Debugger.__init__ config log)) w
          = (Returned (ABasicDebugger d),
             emit [ERead "argus/debug/disclaimer.txt"; ELog log WARNING text] w)
          /\ BasicDebugger._ip d = ip config
          /\ BasicDebugger._port d = port config
          /\ BasicDebugger._authkey d = authkey config
          /\ BasicDebugger._log d = log).
Proof.
  split.
  - intros Hf. unfold Debugger.get. simpl. rewrite Hf. reflexivity.
  - intros Hf text Ht. exists (BasicDebugger.__init__ config log).
    split; [ | repeat split ].
    unfold Debugger.get, open_read, logging.warning. simpl. rewrite Hf.
    cbn [bind run exec]. rewrite Ht. cbn [lift bind run exec].
    f_equal. unfold emit. simpl. rewrite <- app_assoc. reflexivity.
Qed.

(** ** The console: [BasicListener] *)

Section serve.

Variables (self : BasicListener.t) (listener : ListenerHandle).
Variables (w : World) (c : nat) (rest : list nat) (ch : chan).
Hypothesis Hbacklog : backlog w = c :: rest.
Hypothesis Hch : chans w !! c = Some ch.
Hypothesis Hopen : closed_by_console ch = false.

Lemma serve_resumes (msg : string) (q : list string) (lines : list string) :
  to_console ch = BasicListener._PAUSE :: msg :: q ->
  stdin w = "1" :: lines ->
  run (BasicListener.serve self listener) w
  = (Returned PNone,
     served_resume (BasicListener._stdout self) c msg q ch rest lines w).
Proof.
  intros Hq Hin. unfold BasicListener.serve.
  rewrite run_bind. erewrite run_accept by exact Hbacklog. stepped.
  rewrite run_bind.
  erewrite run_recv_bytes; [ | exact Hch | exact Hopen | exact Hq ]. stepped.
  rewrite run_bind.
  erewrite run_recv_bytes;
    [ | simpl; apply lookup_insert_eq | exact Hopen | reflexivity ]. stepped.
  rewrite decide_True by reflexivity.
  unfold logging.info.
  rewrite run_bind, run_log. stepped.
  rewrite run_bind, run_log. stepped.
  rewrite run_bind, run_log. stepped.
  rewrite run_bind. erewrite run_raw_input by exact Hin. stepped.
  rewrite decide_True by reflexivity.
  rewrite run_bind, run_log. stepped.
  rewrite run_try_except, run_bind.
  erewrite run_send_bytes;
    [ | simpl; apply lookup_insert_eq | exact Hopen ].
  stepped. simpl run at 1. stepped. f_equal.
  world_eq. rewrite Hopen. reflexivity.
Qed.

End serve.

Lemma while_true_step (body : Prog pyval) (n : nat) (w w' : World) (v : pyval) :
  run body w = (Returned v, w') ->
  run (BasicListener.while_true (S n) body) w = run (BasicListener.while_true n body) w'.
Proof. intros H. cbn [BasicListener.while_true]. rewrite run_bind, H. reflexivity. Qed.

(** With nothing to accept, the loop is blocked at its head. *)
Lemma while_true_idle (self : BasicListener.t) (listener : ListenerHandle)
    (n : nat) (w : World) :
  backlog w = [] ->
  run (BasicListener.while_true (S n) (BasicListener.serve self listener)) w
  = (Blocked (BasicListener.while_true (S n) (BasicListener.serve self listener)), w).
Proof.
  intros Hb. cbn [BasicListener.while_true]. unfold BasicListener.serve.
  unfold connection.accept. cbn [bind run exec]. rewrite Hb. reflexivity.
Qed.

(** [Debugger.get] at the two configurations of the scenarios. *)
Lemma Debugger_get_selects_witness :
  run (Debugger.get (Debugger.__init__ disabled_config LOG)) disclaimer_on_disk
  = (Returned (AnEmptyDebugger EmptyDebugger.Build), disclaimer_on_disk)
  /\ exists d,
      run (Debugger.get (Debugger.__init__ scenario_config LOG)) disclaimer_on_disk
      = (Returned (ABasicDebugger d),
         emit [ERead "argus/debug/disclaimer.txt";
               ELog LOG WARNING "Argus runs in debug mode."] disclaimer_on_disk)
      /\ BasicDebugger._authkey d = "authkey".
Proof.
  split.
  - apply (proj1 (Debugger_get_selects disabled_config LOG disclaimer_on_disk)).
    reflexivity.
  - destruct (proj2 (Debugger_get_selects scenario_config LOG disclaimer_on_disk)
                eq_refl "Argus runs in debug mode." eq_refl)
      as (d & H1 & _ & _ & H2 & _).
    exists d. split; [ exact H1 | exact H2 ].
Defined.

(** ** The loop with its variable [conn] *)

(** [serve] is [accept] followed by [handle]. *)
Lemma serve_accepts_then_handles (self : BasicListener.t) (listener : ListenerHandle) :
  BasicListener.serve self listener
  = (conn <- connection.accept listener ;; BasicListener.handle self conn).
Proof. reflexivity. Qed.

(** A turn begins: [accept] returns channel [c], the variable is bound to it
    and what it held is let go. *)
Lemma rebinding_accepts (self : BasicListener.t) (listener : ListenerHandle)
    (held : option Connection) (w : World) (c : nat) (rest : list nat) (n : nat) :
  backlog w = c :: rest ->
  run (BasicListener.rebinding (S n) self listener held) w
  = run (BasicListener.handle self {| cid := c; held_by := Console |} ;;
         BasicListener.rebinding n self listener
           (Some {| cid := c; held_by := Console |}))
      (rebound held c rest w).
Proof.
  intros Hb. cbn [BasicListener.rebinding]. rewrite run_bind.
  erewrite run_accept by exact Hb. stepped.
  rewrite run_bind. unfold rebound, let_go, connection.drop.
  destruct held as [ h | ]; [ | reflexivity ].
  cbn [run].
  destruct (exec (OpDrop h) (emit [EAccept c] (set_backlog rest w)))
    as [[[] w'] | ] eqn:E; [ reflexivity | ].
  exfalso. revert E. cbn [exec].
  destruct (chans _ !! cid h) as [ ch | ]; [ | discriminate ].
  destruct (closed_by (held_by h) ch); discriminate.
Qed.

Lemma rebound_trace (held : option Connection) (c : nat) (rest : list nat)
    (w : World) :
  trace (rebound held c rest w) = trace w ++ EAccept c :: drop_events held w.
Proof.
  unfold rebound, let_go, drop_events. destruct held as [ h | ]; [ | reflexivity ].
  cbn [exec chans emit set_backlog].
  destruct (chans w !! cid h) as [ ch | ]; [ | reflexivity ].
  destruct (closed_by (held_by h) ch); [ reflexivity | ].
  cbn [trace emit set_chan set_backlog]. rewrite <- app_assoc. reflexivity.
Qed.

Lemma rebound_rest (held : option Connection) (c : nat) (rest : list nat)
    (w : World) :
  backlog (rebound held c rest w) = rest /\ stdin (rebound held c rest w) = stdin w.
Proof.
  unfold rebound, let_go. destruct held as [ h | ]; [ | split; reflexivity ].
  cbn [exec chans emit set_backlog].
  destruct (chans w !! cid h) as [ ch | ]; [ | split; reflexivity ].
  destruct (closed_by (held_by h) ch); split; reflexivity.
Qed.

(** The channel that is accepted is not the one that is let go. *)
Lemma rebound_accepted (held : option Connection) (c : nat) (rest : list nat)
    (w : World) :
  (forall h, held = Some h -> cid h <> c) ->
  chans (rebound held c rest w) !! c = chans w !! c.
Proof.
  intros Hh. unfold rebound, let_go. destruct held as [ h | ]; [ | reflexivity ].
  cbn [exec chans emit set_backlog].
  destruct (chans w !! cid h) as [ ch | ]; [ | reflexivity ].
  destruct (closed_by (held_by h) ch); [ reflexivity | ].
  cbn [chans emit set_chan set_backlog].
  apply lookup_insert_ne. exact (Hh h eq_refl).
Qed.

(** The channel that is let go is closed from the console's side. *)
Lemma rebound_cut_off (c c' : nat) (rest : list nat) (q : list string)
    (ch : chan) (w : World) :
  chans w !! c = Some {| to_console := q; to_subject := to_subject ch;
                         closed_by_subject := closed_by_subject ch;
                         closed_by_console := false |} ->
  chans (rebound (Some {| cid := c; held_by := Console |}) c' rest w) !! c
  = Some (cut_off q ch).
Proof.
  intros Hc. unfold rebound, let_go.
  cbn [exec chans emit set_backlog cid held_by]. rewrite Hc.
  cbn [closed_by closed_by_console chans emit set_chan set_closed_by
       to_console to_subject closed_by_subject].
  apply lookup_insert_eq.
Qed.

Section handle.

Variables (self : BasicListener.t) (w : World) (c : nat) (ch : chan).
Hypothesis Hch : chans w !! c = Some ch.
Hypothesis Hopen : closed_by_console ch = false.

Let conn : Connection := {| cid := c; held_by := Console |}.

Lemma handle_ignores (t msg : string) (q : list string) :
  to_console ch = t :: msg :: q ->
  t <> BasicListener._PAUSE ->
  run (BasicListener.handle self conn) w = (Returned PNone, read_only c t msg q ch w).
Proof.
  intros Hq Ht. unfold BasicListener.handle.
  rewrite run_bind.
  erewrite run_recv_bytes; [ | exact Hch | exact Hopen | exact Hq ]. stepped.
  rewrite run_bind.
  erewrite run_recv_bytes;
    [ | simpl; apply lookup_insert_eq | exact Hopen | reflexivity ]. stepped.
  rewrite decide_False by exact Ht.
  simpl run at 1. f_equal.
  world_eq. rewrite Hopen. reflexivity.
Qed.

Lemma handle_declines (msg line : string) (q lines : list string) :
  to_console ch = BasicListener._PAUSE :: msg :: q ->
  stdin w = line :: lines ->
  line <> "1" ->
  run (BasicListener.handle self conn) w
  = (Returned PNone, declined (BasicListener._stdout self) c msg q ch lines w).
Proof.
  intros Hq Hin Hline. unfold BasicListener.handle.
  rewrite run_bind.
  erewrite run_recv_bytes; [ | exact Hch | exact Hopen | exact Hq ]. stepped.
  rewrite run_bind.
  erewrite run_recv_bytes;
    [ | simpl; apply lookup_insert_eq | exact Hopen | reflexivity ]. stepped.
  rewrite decide_True by reflexivity.
  unfold logging.info.
  rewrite run_bind, run_log. stepped.
  rewrite run_bind, run_log. stepped.
  rewrite run_bind, run_log. stepped.
  rewrite run_bind. erewrite run_raw_input by exact Hin. stepped.
  rewrite decide_False by exact Hline.
  simpl run at 1. f_equal.
  world_eq. rewrite Hopen. reflexivity.
Qed.

End handle.

(** When the loop, holding the connection of channel [c] whose client has
    got nothing to read, accepts the next connection, the client's
    [recv_bytes] fails with [EOFError]. *)
Lemma rebinding_cuts_off (self : BasicListener.t) (listener : ListenerHandle)
    (c c' : nat) (rest' : list nat) (q : list string) (ch : chan)
    (w' : World) (n : nat) :
  to_subject ch = [] ->
  closed_by_subject ch = false ->
  chans w' !! c = Some {| to_console := q; to_subject := to_subject ch;
                          closed_by_subject := closed_by_subject ch;
                          closed_by_console := false |} ->
  backlog w' = c' :: rest' ->
  let conn := {| cid := c; held_by := Console |} in
  let conn' := {| cid := c'; held_by := Console |} in
  let client := {| cid := c; held_by := Subject |} in
  let w2 := rebound (Some conn) c' rest' w' in
  run (BasicListener.rebinding (S n) self listener (Some conn)) w'
  = run (BasicListener.handle self conn' ;;
         BasicListener.rebinding n self listener (Some conn')) w2
  /\ chans w2 !! c = Some (cut_off q ch)
  /\ ~ open_at Console c w2
  /\ run (connection.recv_bytes client) w2 = (Raised EOFError, w2)
  /\ run (awaiting client) w2 = (Raised EOFError, w2).
Proof.
  intros Hts Hcs Hc Hb conn conn' client w2.
  assert (Hcut : chans w2 !! c = Some (cut_off q ch))
    by (apply rebound_cut_off; exact Hc).
  split; [ apply rebinding_accepts; exact Hb | ].
  split; [ exact Hcut | ]. split; [ | split ].
  - intros (ch2 & H2 & Ho). rewrite Hcut in H2. injection H2 as <-.
    discriminate Ho.
  - eapply run_recv_bytes_eof; [ exact Hcut | exact Hcs | exact Hts | reflexivity ].
  - eapply awaiting_eof; [ exact Hcut | exact Hcs | exact Hts | reflexivity ].
Qed.

(** ** The claims about the console loop *)

(** C5, as amended.  When the connection the loop accepts carries the type
    tag "pause" and the operator enters "1", the console shows the text and
    the menu, sends "resume" on that same connection, and goes back to the
    head of the loop, where it accepts the next connection (and is blocked
    there when there is none).  It does not close the connection: its end
    stays open. *)
Theorem console_resumes_on_1 (self : BasicListener.t) (listener : ListenerHandle)
    (w : World) (c : nat) (rest : list nat) (ch : chan) (msg : string)
    (q lines : list string) :
  backlog w = c :: rest ->
  chans w !! c = Some ch ->
  closed_by_console ch = false ->
  to_console ch = BasicListener._PAUSE :: msg :: q ->
  stdin w = "1" :: lines ->
  let body := BasicListener.serve self listener in
  let w1 := served_resume (BasicListener._stdout self) c msg q ch rest lines w in
  (forall n, run (BasicListener.while_true (S n) body) w
             = run (BasicListener.while_true n body) w1)
  /\ (rest = [] ->
      forall n, run (BasicListener.while_true (S (S n)) body) w
                = (Blocked (BasicListener.while_true (S n) body), w1))
  /\ (exists ch1, chans w1 !! c = Some ch1
                  /\ to_subject ch1 = to_subject ch ++ [BasicListener._RESUME]
                  /\ closed_by_console ch1 = false)
  /\ open_at Console c w1.
Proof.
  intros Hb Hc Ho Hq Hin body w1.
  assert (Hstep : forall n, run (BasicListener.while_true (S n) body) w
                            = run (BasicListener.while_true n body) w1).
  { intros n. apply (while_true_step body n w w1 PNone).
    apply serve_resumes; assumption. }
  split; [ exact Hstep | split; [ | split ] ].
  - intros -> n. rewrite Hstep. apply while_true_idle. reflexivity.
  - eexists. split; [ simpl; apply lookup_insert_eq | split; reflexivity ].
  - eexists. split; [ simpl; apply lookup_insert_eq | reflexivity ].
Qed.

Lemma console_resumes_on_1_witness :
  exists w1,
    (forall n,
        run (BasicListener.while_true (S (S n))
               (BasicListener.serve console {| bound_at := ("127.0.0.1", 5555%Z) |}))
          (set_stdin ["1"] (requested "before method install_cbinit" console_listening))
        = (Blocked (BasicListener.while_true (S n)
                      (BasicListener.serve console {| bound_at := ("127.0.0.1", 5555%Z) |})),
           w1))
    /\ open_at Console 0 w1.
Proof.
  eexists.
  destruct (console_resumes_on_1 console {| bound_at := ("127.0.0.1", 5555%Z) |}
              (set_stdin ["1"] (requested "before method install_cbinit" console_listening))
              0 [] {| to_console := ["pause"; "before method install_cbinit"];
                      to_subject := []; closed_by_subject := false;
                      closed_by_console := false |}
              "before method install_cbinit" [] [])
    as (_ & H2 & _ & H4);
    [ reflexivity .. | ].
  split; [ exact (H2 eq_refl) | exact H4 ].
Defined.

(** C5, the claim as written fails: after a whole pause/resume round trip
    of the two processes, the subject has returned, the console is back in
    [accept], and the console has not closed the connection. *)
Lemma console_leaves_connection_open :
  exists k w',
    interleave 2
      (Blocked (BasicDebugger.pause subject "before method install_cbinit"))
      (Blocked (BasicListener.start console 3)) before_start
    = (Returned PNone, Blocked k, w')
    /\ trace w' = [EListen ("127.0.0.1", 5555%Z);
                   EConnect 0;
                   ESend Subject 0 "pause";
                   ESend Subject 0 "before method install_cbinit";
                   EAccept 0;
                   ERecv Console 0 "pause";
                   ERecv Console 0 "before method install_cbinit";
                   ELog STDOUT INFO "before method install_cbinit";
                   ELog STDOUT INFO "Enter the number of what you want to do:";
                   ELog STDOUT INFO "1. Continue";
                   EPrompt "Prompt: ";
                   ELog STDOUT INFO "Argus is resumed!";
                   ESend Console 0 "resume";
                   ERecv Subject 0 "resume";
                   EClose Subject 0]
    /\ open_at Console 0 w'
    /\ ~ open_at Subject 0 w'.
Proof.
  do 2 eexists. split; [ vm_compute; reflexivity | ].
  split; [ vm_compute; reflexivity | ]. split.
  - eexists. split; [ vm_compute; reflexivity | reflexivity ].
  - intros (ch & Hc & Ho). vm_compute in Hc. injection Hc as <-. discriminate Ho.
Qed.

(** C10.  What the loop does when the connection it accepts carries a type
    tag other than "pause".  It binds [conn] to the connection, which lets
    go of the connection of the turn before, and reads the type tag.  With
    the second message there, it reads that too and does nothing else:
    nothing is shown, nothing is sent, [close] is not called, no line of
    the operator is used, and the loop is back at its head with [conn]
    still holding the connection.  A client blocked in [recv_bytes] on it
    stays blocked while the loop waits in [accept].  It does not wait for
    ever: as soon as [accept] returns the next connection, [conn] is bound
    again, CPython closes the connection that it held, and the client's
    [recv_bytes] fails with [EOFError].  With the second message not there,
    the loop waits for it in [recv_bytes], or, when the client has closed
    its end, ends with [EOFError]. *)
Theorem console_ignores_other_tags (self : BasicListener.t) (listener : ListenerHandle)
    (held : option Connection) (w : World) (c : nat) (rest : list nat)
    (ch : chan) (t : string) (more : list string) :
  backlog w = c :: rest ->
  chans w !! c = Some ch ->
  closed_by_console ch = false ->
  to_console ch = t :: more ->
  t <> BasicListener._PAUSE ->
  (forall h, held = Some h -> cid h <> c) ->
  let conn := {| cid := c; held_by := Console |} in
  let client := {| cid := c; held_by := Subject |} in
  (forall (msg : string) (q : list string),
      more = msg :: q ->
      let w1 := read_only c t msg q ch (rebound held c rest w) in
      (forall n, run (BasicListener.rebinding (S n) self listener held) w
                 = run (BasicListener.rebinding n self listener (Some conn)) w1)
      /\ trace w1 = trace w ++ EAccept c :: drop_events held w
                            ++ [ERecv Console c t; ERecv Console c msg]
      /\ stdin w1 = stdin w
      /\ backlog w1 = rest
      /\ open_at Console c w1
      /\ (to_subject ch = [] ->
          closed_by_subject ch = false ->
          run (connection.recv_bytes client) w1
          = (Blocked (connection.recv_bytes client), w1)
          /\ forall (w' : World) (c' : nat) (rest' : list nat) (n : nat),
               chans w' !! c = chans w1 !! c ->
               backlog w' = c' :: rest' ->
               let conn' := {| cid := c'; held_by := Console |} in
               let w2 := rebound (Some conn) c' rest' w' in
               run (BasicListener.rebinding (S n) self listener (Some conn)) w'
               = run (BasicListener.handle self conn' ;;
                      BasicListener.rebinding n self listener (Some conn')) w2
               /\ ~ open_at Console c w2
               /\ run (connection.recv_bytes client) w2 = (Raised EOFError, w2)))
  /\ (more = [] ->
      closed_by_subject ch = false ->
      forall n, exists k wb,
        run (BasicListener.rebinding (S n) self listener held) w = (Blocked k, wb)
        /\ trace wb = trace w ++ EAccept c :: drop_events held w
                              ++ [ERecv Console c t])
  /\ (more = [] ->
      closed_by_subject ch = true ->
      forall n, exists wb,
        run (BasicListener.rebinding (S n) self listener held) w
        = (Raised EOFError, wb)
        /\ trace wb = trace w ++ EAccept c :: drop_events held w
                              ++ [ERecv Console c t]
        /\ backlog wb = rest).
Proof.
  intros Hb Hc Ho Hq Ht Hh conn client.
  assert (Hca : chans (rebound held c rest w) !! c = Some ch)
    by (rewrite rebound_accepted by exact Hh; exact Hc).
  destruct (rebound_rest held c rest w) as [Hrest Hstdin].
  split; [ | split ].
  - intros msg q -> w1.
    assert (Hc1 : chans w1 !! c
                  = Some {| to_console := q; to_subject := to_subject ch;
                            closed_by_subject := closed_by_subject ch;
                            closed_by_console := false |})
      by (simpl; apply lookup_insert_eq).
    split; [ | split; [ | split; [ | split; [ | split ] ] ] ].
    + intros n. rewrite (rebinding_accepts self listener held w c rest n Hb).
      rewrite run_bind.
      erewrite handle_ignores;
        [ reflexivity | exact Hca | exact Ho | exact Hq | exact Ht ].
    + cbn [w1 trace read_only]. rewrite rebound_trace, <- app_assoc. reflexivity.
    + exact Hstdin.
    + exact Hrest.
    + eexists. split; [ exact Hc1 | reflexivity ].
    + intros Hts Hcs. split.
      * eapply run_recv_bytes_blocks;
          [ exact Hc1 | exact Hcs | exact Hts | reflexivity ].
      * intros w' c' rest' n Hw' Hb' conn' w2. rewrite Hc1 in Hw'.
        destruct (rebinding_cuts_off self listener c c' rest' q ch w' n
                    Hts Hcs Hw' Hb') as (H1 & _ & H3 & H4 & _).
        split; [ exact H1 | split; [ exact H3 | exact H4 ] ].
  - intros -> Hcs n.
    rewrite (rebinding_accepts self listener held w c rest n Hb).
    rewrite run_bind. unfold BasicListener.handle. rewrite run_bind.
    erewrite run_recv_bytes; [ | exact Hca | exact Ho | exact Hq ]. stepped.
    rewrite run_bind.
    erewrite run_recv_bytes_blocks;
      [ | simpl; apply lookup_insert_eq | exact Ho | reflexivity | exact Hcs ].
    stepped. do 2 eexists. split; [ reflexivity | ].
    simpl. rewrite rebound_trace, <- app_assoc. reflexivity.
  - intros -> Hcs n.
    rewrite (rebinding_accepts self listener held w c rest n Hb).
    rewrite run_bind. unfold BasicListener.handle. rewrite run_bind.
    erewrite run_recv_bytes; [ | exact Hca | exact Ho | exact Hq ]. stepped.
    rewrite run_bind.
    erewrite run_recv_bytes_eof;
      [ | simpl; apply lookup_insert_eq | exact Ho | reflexivity | exact Hcs ].
    stepped. eexists. split; [ reflexivity | ]. split.
    + simpl. rewrite rebound_trace, <- app_assoc. reflexivity.
    + exact Hrest.
Qed.

Lemma console_ignores_other_tags_witness :
  let ch := {| to_console := ["ping"; "hello"]; to_subject := [];
               closed_by_subject := false; closed_by_console := false |} in
  let client := {| cid := 0; held_by := Subject |} in
  let w1 := read_only 0 "ping" "hello" [] ch (rebound None 0 [1] stray_then_pause) in
  let w2 := rebound (Some {| cid := 0; held_by := Console |}) 1 [] w1 in
  trace w1 = [EAccept 0; ERecv Console 0 "ping"; ERecv Console 0 "hello"]
  /\ run (connection.recv_bytes client) w1
     = (Blocked (connection.recv_bytes client), w1)
  /\ run (connection.recv_bytes client) w2 = (Raised EOFError, w2).
Proof.
  intros ch client w1 w2.
  destruct (console_ignores_other_tags console
              {| bound_at := ("127.0.0.1", 5555%Z) |} None stray_then_pause
              0 [1] ch "ping" ["hello"])
    as (H & _).
  - reflexivity.
  - reflexivity.
  - reflexivity.
  - reflexivity.
  - discriminate.
  - discriminate.
  - destruct (H "hello" [] eq_refl) as (_ & H2 & _ & _ & _ & H6).
    destruct (H6 eq_refl eq_refl) as [H7 H8].
    destruct (H8 w1 1%nat [] 0%nat eq_refl eq_refl) as (_ & _ & H9).
    split; [ exact H2 | split; [ exact H7 | exact H9 ] ].
Defined.

(** The console of the scenarios, started in a world where a stray client
    and then a debugger wait to be accepted: the console reads the stray
    client's two messages, accepts the debugger's connection, serves it, and
    waits in [accept]; by then the stray client's connection has been closed
    under it, without any call of [close], and its [recv_bytes] fails. *)
Lemma scenario_stray_client :
  exists k w',
    run (BasicListener.rebinding 3 console {| bound_at := ("127.0.0.1", 5555%Z) |} None)
      stray_then_pause
    = (Blocked k, w')
    /\ trace w' = [EAccept 0;
                   ERecv Console 0 "ping";
                   ERecv Console 0 "hello";
                   EAccept 1;
                   EDrop Console 0;
                   ERecv Console 1 "pause";
                   ERecv Console 1 "second";
                   ELog STDOUT INFO "second";
                   ELog STDOUT INFO "Enter the number of what you want to do:";
                   ELog STDOUT INFO "1. Continue";
                   EPrompt "Prompt: ";
                   ELog STDOUT INFO "Argus is resumed!";
                   ESend Console 1 "resume"]
    /\ run (connection.recv_bytes {| cid := 0; held_by := Subject |}) w'
       = (Raised EOFError, w').
Proof.
  do 2 eexists. split; [ vm_compute; reflexivity | ].
  split; vm_compute; reflexivity.
Qed.

(** ** The two processes together: the scenarios of the specification *)

(** [start] binds the listener and enters the loop. *)
Lemma start_listens (self : BasicListener.t) (n : nat) (w : World) :
  listening w = None ->
  run (BasicListener.start self n) w
  = run (BasicListener.while_true n
           (BasicListener.serve self
              {| bound_at := (BasicListener._ip self, BasicListener._port self) |}))
      (emit [EListen (BasicListener._ip self, BasicListener._port self)]
         (set_listening
            (Some (BasicListener._ip self, BasicListener._port self,
                   BasicListener._authkey self)) w)).
Proof.
  intros Hl. unfold BasicListener.start. rewrite run_bind.
  unfold BasicListener._new_listener. rewrite run_try_except.
  unfold connection.Listener. cbn [run exec]. rewrite Hl. reflexivity.
Qed.

(** So does [start] with the variable of its loop. *)
Lemma start_rebinding_listens (self : BasicListener.t) (n : nat) (w : World) :
  listening w = None ->
  run (BasicListener.start_rebinding self n) w
  = run (BasicListener.rebinding n self
           {| bound_at := (BasicListener._ip self, BasicListener._port self) |}
           None)
      (emit [EListen (BasicListener._ip self, BasicListener._port self)]
         (set_listening
            (Some (BasicListener._ip self, BasicListener._port self,
                   BasicListener._authkey self)) w)).
Proof.
  intros Hl. unfold BasicListener.start_rebinding. rewrite run_bind.
  unfold BasicListener._new_listener. rewrite run_try_except.
  unfold connection.Listener. cbn [run exec]. rewrite Hl. reflexivity.
Qed.

(** The subject calls an instrumented operation that returns 42, and the
    operator answers "1" twice: the call returns [None], after two
    rendezvous, the one for "before" first. *)
Lemma scenario_wait_answer :
  exists kc w',
    interleave 3
      (Blocked (wait subject answer [] []))
      (Blocked (BasicListener.start console 4)) before_start_twice
    = (Returned PNone, Blocked kc, w')
    /\ List.filter by_subject (trace w')
       = [EConnect 0;
          ESend Subject 0 "pause";
          ESend Subject 0 "We are before method answer!";
          ERecv Subject 0 "resume";
          EClose Subject 0;
          EConnect 1;
          ESend Subject 1 "pause";
          ESend Subject 1 "We are after method answer!";
          ERecv Subject 1 "resume";
          EClose Subject 1].
Proof.
  do 2 eexists. split; vm_compute; reflexivity.
Qed.

(** * Further properties of the code *)

(** ** The console loop *)

(** X1.  When the accepted connection carries a pause request and the
    operator answers the prompt with anything but "1", the console has shown
    the text and the menu and does nothing more: no resume signal, no call
    of [close], no second prompt; the loop is back at its head.  The subject
    that sent the request stays blocked in the [recv_bytes] of [pause] while
    the loop waits in [accept]; when [accept] returns the next connection
    and [conn] is bound to it, the declined connection is closed under the
    subject, whose [pause] fails with [EOFError]. *)
Theorem console_declines_other_input (self : BasicListener.t)
    (listener : ListenerHandle) (held : option Connection) (w : World)
    (c : nat) (rest : list nat) (ch : chan) (msg line : string)
    (q lines : list string) :
  backlog w = c :: rest ->
  chans w !! c = Some ch ->
  closed_by_console ch = false ->
  to_console ch = BasicListener._PAUSE :: msg :: q ->
  stdin w = line :: lines ->
  line <> "1" ->
  (forall h, held = Some h -> cid h <> c) ->
  let conn := {| cid := c; held_by := Console |} in
  let client := {| cid := c; held_by := Subject |} in
  let w1 := declined (BasicListener._stdout self) c msg q ch lines
              (rebound held c rest w) in
  (forall n, run (BasicListener.rebinding (S n) self listener held) w
             = run (BasicListener.rebinding n self listener (Some conn)) w1)
  /\ trace w1
     = trace w ++ EAccept c :: drop_events held w
               ++ [ERecv Console c BasicListener._PAUSE;
                   ERecv Console c msg;
                   ELog (BasicListener._stdout self) INFO msg;
                   ELog (BasicListener._stdout self) INFO
                     "Enter the number of what you want to do:";
                   ELog (BasicListener._stdout self) INFO "1. Continue";
                   EPrompt "Prompt: "]
  /\ stdin w1 = lines
  /\ open_at Console c w1
  /\ (to_subject ch = [] ->
      closed_by_subject ch = false ->
      run (awaiting client) w1 = (Blocked (awaiting client), w1)
      /\ forall (w' : World) (c' : nat) (rest' : list nat) (n : nat),
           chans w' !! c = chans w1 !! c ->
           backlog w' = c' :: rest' ->
           let conn' := {| cid := c'; held_by := Console |} in
           let w2 := rebound (Some conn) c' rest' w' in
           run (BasicListener.rebinding (S n) self listener (Some conn)) w'
           = run (BasicListener.handle self conn' ;;
                  BasicListener.rebinding n self listener (Some conn')) w2
           /\ ~ open_at Console c w2
           /\ run (awaiting client) w2 = (Raised EOFError, w2)).
Proof.
  intros Hb Hc Ho Hq Hin Hline Hh conn client w1.
  assert (Hc1 : chans w1 !! c
                = Some {| to_console := q; to_subject := to_subject ch;
                          closed_by_subject := closed_by_subject ch;
                          closed_by_console := false |})
    by (simpl; apply lookup_insert_eq).
  destruct (rebound_rest held c rest w) as [Hrest Hstdin].
  split; [ | split; [ | split; [ | split ] ] ].
  - intros n. rewrite (rebinding_accepts self listener held w c rest n Hb).
    rewrite run_bind.
    erewrite handle_declines;
      [ reflexivity | rewrite rebound_accepted by exact Hh; exact Hc
      | exact Ho | exact Hq | rewrite Hstdin; exact Hin | exact Hline ].
  - cbn [w1 trace declined]. rewrite rebound_trace, <- app_assoc. reflexivity.
  - reflexivity.
  - eexists. split; [ exact Hc1 | reflexivity ].
  - intros Hts Hcs. split.
    + eapply awaiting_blocks; [ exact Hc1 | exact Hcs | exact Hts | reflexivity ].
    + intros w' c' rest' n Hw' Hb' conn' w2. rewrite Hc1 in Hw'.
      destruct (rebinding_cuts_off self listener c c' rest' q ch w' n
                  Hts Hcs Hw' Hb') as (H1 & _ & H3 & _ & H5).
      split; [ exact H1 | split; [ exact H3 | exact H5 ] ].
Qed.

Lemma console_declines_other_input_witness :
  let ch := {| to_console := ["pause"; "first"]; to_subject := [];
               closed_by_subject := false; closed_by_console := false |} in
  let client := {| cid := 0; held_by := Subject |} in
  let w1 := declined STDOUT 0 "first" [] ch ["1"]
              (rebound None 0 [1] (set_stdin ["no"; "1"] two_pending)) in
  let w2 := rebound (Some {| cid := 0; held_by := Console |}) 1 [] w1 in
  run (awaiting client) w1 = (Blocked (awaiting client), w1)
  /\ run (awaiting client) w2 = (Raised EOFError, w2).
Proof.
  intros ch client w1 w2.
  destruct (console_declines_other_input console
              {| bound_at := ("127.0.0.1", 5555%Z) |} None
              (set_stdin ["no"; "1"] two_pending)
              0 [1] ch "first" "no" [] ["1"])
    as (_ & _ & _ & _ & H5).
  - reflexivity.
  - reflexivity.
  - reflexivity.
  - reflexivity.
  - reflexivity.
  - discriminate.
  - discriminate.
  - destruct (H5 eq_refl eq_refl) as [H6 H7].
    destruct (H7 w1 1%nat [] 0%nat eq_refl eq_refl) as (_ & _ & H8).
    split; [ exact H6 | exact H8 ].
Defined.

(** X2.  When the client of the accepted connection has closed its end
    before sending both framed messages, the [recv_bytes] of the console
    raises [EOFError]; nothing catches it, so it ends the loop: the
    connections still waiting are never accepted. *)
Theorem console_dies_on_early_hangup (self : BasicListener.t)
    (listener : ListenerHandle) (w : World) (c : nat) (rest : list nat)
    (ch : chan) (n : nat) :
  backlog w = c :: rest ->
  chans w !! c = Some ch ->
  closed_by_console ch = false ->
  closed_by_subject ch = true ->
  (length (to_console ch) < 2)%nat ->
  exists w',
    run (BasicListener.while_true (S n) (BasicListener.serve self listener)) w
    = (Raised EOFError, w')
    /\ backlog w' = rest
    /\ trace w' = trace w ++ EAccept c :: map (ERecv Console c) (to_console ch).
Proof.
  intros Hb Hc Ho Hs Hlen. cbn [BasicListener.while_true].
  rewrite run_bind. unfold BasicListener.serve.
  rewrite run_bind. erewrite run_accept by exact Hb. stepped.
  rewrite run_bind.
  destruct (to_console ch) as [ | t [ | m q ] ] eqn:Hq; [ | | simpl in Hlen; lia ].
  - erewrite run_recv_bytes_eof; [ | exact Hc | exact Ho | exact Hq | exact Hs ].
    stepped. eexists. split; [ reflexivity | ]. split; reflexivity.
  - erewrite run_recv_bytes; [ | exact Hc | exact Ho | exact Hq ]. stepped.
    rewrite run_bind.
    erewrite run_recv_bytes_eof;
      [ | simpl; apply lookup_insert_eq | exact Ho | reflexivity | exact Hs ].
    stepped. eexists. split; [ reflexivity | ]. split; [ reflexivity | ].
    simpl. rewrite <- app_assoc. reflexivity.
Qed.

Lemma console_dies_on_early_hangup_witness :
  exists w',
    run (BasicListener.while_true 3
           (BasicListener.serve console {| bound_at := ("127.0.0.1", 5555%Z) |}))
      early_hangup
    = (Raised EOFError, w')
    /\ backlog w' = [1]
    /\ trace w' = [EAccept 0; ERecv Console 0 "pause"].
Proof.
  apply (console_dies_on_early_hangup console
           {| bound_at := ("127.0.0.1", 5555%Z) |} early_hangup 0 [1]
           {| to_console := ["pause"]; to_subject := [];
              closed_by_subject := true; closed_by_console := false |} 2).
  - reflexivity.
  - reflexivity.
  - reflexivity.
  - reflexivity.
  - simpl. lia.
Defined.



(** ** The decorator and the factory *)

(** X4.  When the wrapped operation raises, the exception goes through the
    instrumented call unchanged and the after hook is not run: the call
    ends in the world in which the operation raised.  Under
    [BasicDebugger] that is after exactly one rendezvous, the one for
    "before"; under [EmptyDebugger] it is the operation's own failure. *)
Theorem wait_operation_raises (func : function) (args : list pyval)
    (kwargs : list (string * pyval)) (e : exn) :
  (forall (d : BasicDebugger.t) (w0 wb : World),
      accepts w0 d ->
      run (call func args kwargs)
        (after_rendezvous ("We are before method " +:+ __name__ func +:+ "!") w0)
      = (Raised e, wb) ->
      run_with [deliver (fresh w0) BasicListener._RESUME]
        (wait d func args kwargs) w0
      = (Raised e, wb, []))
  /\ (forall (self : EmptyDebugger.t) (w wb : World),
        run (call func args kwargs) w = (Raised e, wb) ->
        run (wait self func args kwargs) w = (Raised e, wb)).
Proof.
  split.
  - intros d w0 wb Ha Hf. unfold wait.
    cbn [_action_before_method BasicDebugger_BaseDebugger].
    unfold BasicDebugger._action_before_method.
    rewrite run_with_bind, run_with_bind.
    rewrite pause_rendezvous by assumption. stepped.
    rewrite (run_with_returned _ (Ret PNone) _ _ PNone eq_refl). stepped.
    rewrite run_with_bind. cbn [run_with]. rewrite Hf. reflexivity.
  - intros self w wb Hf. unfold wait.
    cbn [_action_before_method EmptyDebugger_BaseDebugger].
    unfold EmptyDebugger._action_before_method. cbn [bind].
    rewrite run_bind, Hf. reflexivity.
Qed.

Lemma wait_operation_raises_witness :
  run_with [deliver 0 "resume"] (wait subject failing [] []) console_listening
  = (Raised IOError,
     emit [ELog LOG INFO "about to fail"]
       (after_rendezvous "We are before method failing!" console_listening),
     []).
Proof.
  apply (proj1 (wait_operation_raises failing [] [] IOError) subject
           console_listening).
  - reflexivity.
  - reflexivity.
Defined.

(** X5.  When the listening side rejects the secret, an instrumented call
    under [BasicDebugger] fails in its before hook and the wrapped operation
    is never started, whatever it is: the call raises [TypeError] and all
    that has happened is the log record of [_new_client]. *)
Theorem wait_rejected_never_runs_operation (d : BasicDebugger.t) (func : function)
    (args : list pyval) (kwargs : list (string * pyval)) (w : World) :
  rejects w d ->
  run (wait d func args kwargs) w
  = (Raised TypeError,
     emit [ELog (BasicDebugger._log d) EXCEPTION
             "AuthenticationError - Client creationfailed. Check authentication key!"]
       w).
Proof.
  intros (key & Hk & Hne). unfold wait.
  cbn [_action_before_method BasicDebugger_BaseDebugger].
  unfold BasicDebugger._action_before_method, BasicDebugger.pause.
  rewrite !run_bind. unfold BasicDebugger._new_client.
  rewrite run_try_except.
  erewrite run_Client_rejected by eassumption.
  stepped. rewrite run_bind. unfold logging.exception.
  rewrite run_log. reflexivity.
Qed.

Lemma wait_rejected_never_runs_operation_witness :
  run (wait intruder answer [] []) console_listening
  = (Raised TypeError,
     emit [ELog LOG EXCEPTION
             "AuthenticationError - Client creationfailed. Check authentication key!"]
       console_listening).
Proof.
  apply (wait_rejected_never_runs_operation intruder answer [] [] console_listening).
  exists "authkey". split; [ reflexivity | discriminate ].
Defined.

(** X6.  With the flag on and no disclaimer file to read, [Debugger.get]
    fails with the [IOError] of [open]: no debugger is returned and nothing
    is logged. *)
Theorem Debugger_get_missing_disclaimer (config : debug) (log : Logger) (w : World) :
  flag config = true ->
  files w !! "argus/debug/disclaimer.txt" = None ->
  run (Debugger.get (Debugger.__init__ config log)) w = (Raised IOError, w).
Proof.
  intros Hf Hnone. unfold Debugger.get, open_read. simpl. rewrite Hf.
  cbn [bind run exec]. rewrite Hnone. reflexivity.
Qed.

Lemma Debugger_get_missing_disclaimer_witness :
  run (Debugger.get (Debugger.__init__ scenario_config LOG)) console_listening
  = (Raised IOError, console_listening).
Proof.
  apply (Debugger_get_missing_disclaimer scenario_config LOG console_listening);
    reflexivity.
Defined.

(** X7.  With the flag off, instrumenting costs nothing: an instrumented
    call through the debugger that [Debugger.get] hands out is the
    operation itself followed by [return None], as a program; so it makes
    the same primitive calls, raises the same exceptions and blocks in the
    same places, in every world and every environment. *)
Theorem disabled_debugger_wait_is_transparent (config : debug) (log : Logger)
    (func : function) (args : list pyval) (kwargs : list (string * pyval)) :
  flag config = false ->
  (d <- Debugger.get (Debugger.__init__ config log) ;; wait d func args kwargs)
  = (call func args kwargs ;; Ret PNone)
  /\ forall env w,
      run_with env
        (d <- Debugger.get (Debugger.__init__ config log) ;;
         wait d func args kwargs) w
      = run_with env (call func args kwargs ;; Ret PNone) w.
Proof.
  intros Hf.
  assert (E : (d <- Debugger.get (Debugger.__init__ config log) ;;
               wait d func args kwargs)
              = (call func args kwargs ;; Ret PNone)).
  { unfold Debugger.get. simpl. rewrite Hf. reflexivity. }
  split; [ exact E | ]. intros env w. rewrite E. reflexivity.
Qed.

Lemma disabled_debugger_wait_is_transparent_witness :
  (d <- Debugger.get (Debugger.__init__ disabled_config LOG) ;; wait d failing [] [])
  = (call failing [] [] ;; Ret PNone).
Proof.
  apply (disabled_debugger_wait_is_transparent disabled_config LOG failing [] []).
  reflexivity.
Defined.

(** ** [pause] and its two helpers *)

(** X8.  [_new_client] catches [AuthenticationError] only: any other
    failure of [Client] (nobody listening, for one) leaves [pause] as it is,
    with nothing logged and nothing sent. *)
Theorem pause_other_connection_errors (d : BasicDebugger.t) (msg : string)
    (w w' : World) (e : exn) :
  run (connection.Client (BasicDebugger._ip d, BasicDebugger._port d)
         (BasicDebugger._authkey d)) w
  = (Raised e, w') ->
  e <> AuthenticationError ->
  run (BasicDebugger.pause d msg) w = (Raised e, w').
Proof.
  intros Hc He. unfold BasicDebugger.pause. rewrite run_bind.
  unfold BasicDebugger._new_client. rewrite run_try_except, Hc.
  destruct e; try reflexivity. contradiction.
Qed.

Lemma pause_other_connection_errors_witness :
  run (BasicDebugger.pause subject "before method install_cbinit") before_start
  = (Raised SocketError, before_start).
Proof.
  apply (pause_other_connection_errors subject "before method install_cbinit"
           before_start before_start SocketError).
  - reflexivity.
  - discriminate.
Defined.



(** ** Strings: [split], [splitlines], [strip] *)

Lemma str_split_not_nil (sep : ascii) (s : string) : str_split sep s <> [].
Proof.
  destruct s as [ | a s ]; simpl; [ discriminate | ].
  destruct (Ascii.eqb a sep); [ discriminate | ].
  destruct (str_split sep s); discriminate.
Qed.

Lemma concat_cons_not_nil (sep x : string) (l : list string) :
  l <> [] -> String.concat sep (x :: l) = (x +:+ sep +:+ String.concat sep l).
Proof. destruct l; [ congruence | reflexivity ]. Qed.

Lemma concat_str_split (sep : ascii) (s : string) :
  String.concat (String sep EmptyString) (str_split sep s) = s.
Proof.
  induction s as [ | a s IH ]; [ reflexivity | ]. cbn [str_split].
  destruct (Ascii.eqb_spec a sep) as [-> | Hne].
  - rewrite concat_cons_not_nil by apply str_split_not_nil.
    simpl. rewrite IH. reflexivity.
  - pose proof (str_split_not_nil sep s) as Hnil.
    destruct (str_split sep s) as [ | piece rest ]; [ congruence | ].
    rewrite <- IH. destruct rest; reflexivity.
Qed.

Lemma str_split_without (sep a : ascii) (s : string) :
  (a = sep \/ without a s) -> Forall (without a) (str_split sep s).
Proof.
  intros H. induction s as [ | b s IH ]; cbn [str_split].
  - constructor; [ exact I | constructor ].
  - assert (H' : a = sep \/ without a s).
    { destruct H as [-> | [_ H]]; [ left; reflexivity | right; exact H ]. }
    specialize (IH H').
    destruct (Ascii.eqb_spec b sep) as [-> | Hne].
    + constructor; [ exact I | exact IH ].
    + destruct (str_split sep s) as [ | piece rest ].
      * constructor; [ | constructor ]. split; [ | exact I ].
        destruct H as [-> | [Hb _]]; assumption.
      * apply Forall_cons in IH as [Hp Hr].
        constructor; [ | exact Hr ]. split; [ | exact Hp ].
        destruct H as [-> | [Hb _]]; assumption.
Qed.

Lemma str_split_one (sep : ascii) (x : string) :
  without sep x -> str_split sep x = [x].
Proof.
  induction x as [ | a x IH ]; [ reflexivity | ]. intros [Ha Hx].
  cbn [str_split]. destruct (Ascii.eqb_spec a sep); [ contradiction | ].
  rewrite (IH Hx). reflexivity.
Qed.

Lemma str_split_app (sep : ascii) (x rest : string) :
  without sep x ->
  str_split sep (x +:+ String sep rest) = x :: str_split sep rest.
Proof.
  induction x as [ | a x IH ]; intros Hx.
  - simpl. rewrite Ascii.eqb_refl. reflexivity.
  - destruct Hx as [Ha Hx].
    change (String a x +:+ String sep rest) with (String a (x +:+ String sep rest)).
    cbn [str_split].
    destruct (Ascii.eqb_spec a sep); [ contradiction | ].
    rewrite (IH Hx). reflexivity.
Qed.

(** A list written with separators reads back as it was. *)
Lemma str_split_concat (sep : ascii) (xs : list string) :
  xs <> [] ->
  Forall (without sep) xs ->
  str_split sep (String.concat (String sep EmptyString) xs) = xs.
Proof.
  induction xs as [ | x xs IH ]; [ congruence | ]. intros _ Hall.
  apply Forall_cons in Hall as [Hx Hxs].
  destruct xs as [ | y xs ].
  - simpl. apply str_split_one, Hx.
  - rewrite concat_cons_not_nil by discriminate.
    set (t := String.concat _ (y :: xs)) in *.
    change (x +:+ String sep EmptyString +:+ t) with (x +:+ String sep t).
    rewrite str_split_app by exact Hx.
    rewrite IH; [ reflexivity | discriminate | exact Hxs ].
Qed.

Lemma str_splitlines_without (a : ascii) (s : string) :
  (is_linebreak a = true \/ without a s) -> Forall (without a) (str_splitlines s).
Proof.
  intros H.
  assert (Hgen : forall n s, (String.length s <= n)%nat ->
            (is_linebreak a = true \/ without a s) ->
            Forall (without a) (str_splitlines s)).
  { clear s H. induction n as [ | n IH ]; intros s Hn H.
    - destruct s; [ constructor | simpl in Hn; lia ].
    - destruct s as [ | b s ]; [ constructor | ]. simpl in Hn.
      assert (H' : is_linebreak a = true \/ without a s).
      { destruct H as [H | [_ H]]; [ left | right ]; exact H. }
      cbn [str_splitlines].
      destruct (Ascii.eqb_spec b "010") as [-> | Hn1].
      + constructor; [ exact I | apply IH; [ lia | exact H' ] ].
      + destruct (Ascii.eqb_spec b "013") as [-> | Hn2].
        * destruct s as [ | c s ].
          -- constructor; [ exact I | constructor ].
          -- simpl in Hn.
             destruct (Ascii.eqb c "010").
             ++ constructor; [ exact I | ]. apply IH; [ lia | ].
                destruct H' as [H' | [_ H']]; [ left | right ]; exact H'.
             ++ constructor; [ exact I | ]. apply IH; [ simpl; lia | exact H' ].
        * assert (Hb : b <> a).
          { destruct H as [H | [Hb _]]; [ | exact Hb ].
            intros ->. unfold is_linebreak in H.
            apply orb_true_iff in H as [H | H]; apply Ascii.eqb_eq in H; congruence. }
          pose proof (IH s ltac:(lia) H') as IHs.
          destruct (str_splitlines s) as [ | line rest ].
          -- constructor; [ | constructor ]. split; [ exact Hb | exact I ].
          -- apply Forall_cons in IHs as [Hl Hr].
             constructor; [ | exact Hr ]. split; assumption. }
  apply (Hgen (String.length s) s); [ lia | exact H ].
Qed.

Lemma str_splitlines_one (s : string) :
  s <> EmptyString ->
  without "010" s -> without "013" s ->
  str_splitlines s = [s].
Proof.
  induction s as [ | a s IH ]; [ congruence | ]. intros _ [Ha1 H1] [Ha2 H2].
  cbn [str_splitlines].
  destruct (Ascii.eqb_spec a "010"); [ contradiction | ].
  destruct (Ascii.eqb_spec a "013"); [ contradiction | ].
  destruct s as [ | b s ]; [ reflexivity | ].
  rewrite IH; [ reflexivity | discriminate | assumption | assumption ].
Qed.

Lemma str_lstrip_without (a : ascii) (s : string) :
  without a s -> without a (str_lstrip s).
Proof.
  induction s as [ | b s IH ]; [ auto | ]. intros [Hb Hs]. simpl.
  destruct (is_space b); [ apply IH, Hs | split; assumption ].
Qed.

Lemma str_rstrip_without (a : ascii) (s : string) :
  without a s -> without a (str_rstrip s).
Proof.
  induction s as [ | b s IH ]; [ auto | ]. intros [Hb Hs]. simpl.
  specialize (IH Hs). destruct (str_rstrip s) as [ | c r ].
  - destruct (is_space b); [ exact I | split; [ exact Hb | exact I ] ].
  - split; assumption.
Qed.

Lemma str_rstrip_idem (s : string) : str_rstrip (str_rstrip s) = str_rstrip s.
Proof.
  induction s as [ | a s IH ]; [ reflexivity | ]. cbn [str_rstrip].
  destruct (str_rstrip s) as [ | c r ] eqn:E.
  - destruct (is_space a) eqn:Ea; [ reflexivity | ].
    cbn [str_rstrip]. rewrite Ea. reflexivity.
  - cbn [str_rstrip]. cbn [str_rstrip] in IH. rewrite IH. reflexivity.
Qed.

Lemma str_lstrip_first (s : string) : no_space_first (str_lstrip s).
Proof.
  induction s as [ | a s IH ]; [ exact I | ]. simpl.
  destruct (is_space a) eqn:E; [ exact IH | exact E ].
Qed.

Lemma str_lstrip_id (s : string) : no_space_first s -> str_lstrip s = s.
Proof. destruct s as [ | a s ]; [ reflexivity | ]. simpl. intros ->. reflexivity. Qed.

Lemma str_rstrip_first (s : string) : no_space_first s -> no_space_first (str_rstrip s).
Proof.
  destruct s as [ | a s ]; [ auto | ]. simpl. intros Ha.
  destruct (str_rstrip s); rewrite ?Ha; exact Ha.
Qed.

Lemma str_strip_idem (s : string) : str_strip (str_strip s) = str_strip s.
Proof.
  unfold str_strip.
  rewrite (str_lstrip_id (str_rstrip (str_lstrip s))).
  - apply str_rstrip_idem.
  - apply str_rstrip_first, str_lstrip_first.
Qed.

Lemma plain_without_comma (s : string) : plain s -> without "," s.
Proof. induction s as [ | a s IH ]; [ auto | ]. intros (H1 & _ & H3). split; auto. Qed.

Lemma plain_without_space (a : ascii) (s : string) :
  is_space a = true -> plain s -> without a s.
Proof.
  intros Ha. induction s as [ | b s IH ]; [ auto | ]. intros (_ & H2 & H3).
  split; [ | auto ]. intros ->. congruence.
Qed.

Lemma plain_rstrip (s : string) : plain s -> str_rstrip s = s.
Proof.
  induction s as [ | a s IH ]; [ reflexivity | ]. intros (_ & H2 & H3).
  cbn [str_rstrip]. rewrite (IH H3), H2. destruct s; reflexivity.
Qed.

Lemma plain_strip (s : string) : plain s -> str_strip s = s.
Proof.
  intros H. unfold str_strip. rewrite str_lstrip_id.
  - apply plain_rstrip, H.
  - destruct s as [ | a s ]; [ exact I | ]. destruct H as (_ & H & _). exact H.
Qed.

Lemma without_app (a : ascii) (x y : string) :
  without a x -> without a y -> without a (x +:+ y).
Proof.
  induction x as [ | b x IH ]; [ auto | ]. intros [Hb Hx] Hy.
  split; [ exact Hb | apply IH; assumption ].
Qed.

Lemma without_concat (a sep : ascii) (xs : list string) :
  a <> sep ->
  Forall (without a) xs ->
  without a (String.concat (String sep EmptyString) xs).
Proof.
  intros Hne. induction xs as [ | x xs IH ]; [ intros _; exact I | ].
  intros Hall. apply Forall_cons in Hall as [Hx Hxs].
  destruct xs as [ | y xs ]; [ exact Hx | ].
  rewrite concat_cons_not_nil by discriminate.
  apply without_app; [ exact Hx | ].
  split; [ congruence | apply IH, Hxs ].
Qed.

Lemma blank_without (a : ascii) (s : string) :
  a <> " "%char -> a <> "009"%char -> blank s -> without a s.
Proof.
  intros H1 H2. induction s as [ | b s IH ]; [ auto | ]. intros [Hb Hs].
  split; [ | apply IH, Hs ]. destruct Hb as [-> | ->]; congruence.
Qed.

Lemma blank_rstrip (s : string) : blank s -> str_rstrip s = EmptyString.
Proof.
  induction s as [ | b s IH ]; [ reflexivity | ]. intros [Hb Hs].
  cbn [str_rstrip]. rewrite (IH Hs). destruct Hb as [-> | ->]; reflexivity.
Qed.

Lemma str_lstrip_blank_app (l t : string) :
  blank l -> str_lstrip (l +:+ t) = str_lstrip t.
Proof.
  induction l as [ | b l IH ]; [ reflexivity | ]. intros [Hb Hl].
  change (String b l +:+ t) with (String b (l +:+ t)). cbn [str_lstrip].
  destruct Hb as [-> | ->]; apply IH, Hl.
Qed.

Lemma str_rstrip_app_blank (x r : string) :
  blank r -> str_rstrip (x +:+ r) = str_rstrip x.
Proof.
  intros Hr. induction x as [ | a x IH ]; [ apply blank_rstrip, Hr | ].
  change (String a x +:+ r) with (String a (x +:+ r)). cbn [str_rstrip].
  rewrite IH. reflexivity.
Qed.

Lemma padded_strip (x y : string) :
  plain x -> padded x y -> str_strip y = x.
Proof.
  intros Hx (l & r & Hl & Hr & ->). unfold str_strip.
  rewrite str_lstrip_blank_app by exact Hl.
  destruct x as [ | a x ].
  - change (EmptyString +:+ r) with r.
    assert (E : str_lstrip r = EmptyString).
    { clear -Hr. induction r as [ | b r IH ]; [ reflexivity | ].
      destruct Hr as [Hb Hr]. simpl. destruct Hb as [-> | ->]; apply IH, Hr. }
    rewrite E. reflexivity.
  - rewrite str_lstrip_id.
    + rewrite str_rstrip_app_blank by exact Hr. apply plain_rstrip, Hx.
    + destruct Hx as (_ & H & _). exact H.
Qed.

Lemma padded_without (a : ascii) (x y : string) :
  a <> " "%char -> a <> "009"%char ->
  without a x -> padded x y -> without a y.
Proof.
  intros H1 H2 Hx (l & r & Hl & Hr & ->).
  apply without_app; [ apply blank_without; assumption | ].
  apply without_app; [ exact Hx | apply blank_without; assumption ].
Qed.

Lemma padded_not_empty (x y : string) :
  x <> EmptyString -> padded x y -> y <> EmptyString.
Proof.
  intros Hx (l & r & _ & _ & ->). destruct l; [ | discriminate ].
  destruct x; [ congruence | discriminate ].
Qed.

Lemma filter_None_id (ys : list string) :
  Forall (fun y => y <> EmptyString) ys -> filter_None ys = ys.
Proof.
  induction 1 as [ | y ys Hy _ IH ]; [ reflexivity | ].
  unfold filter_None in *. cbn [List.filter].
  destruct (String.eqb_spec y EmptyString); [ contradiction | ].
  cbn [negb]. rewrite IH. reflexivity.
Qed.

(** ** argus/config.py *)

(** X10.  Whatever the value of the option, every item that [getlist]
    returns is free of commas and of line ends and has no whitespace at its
    ends. *)
Theorem getlist_items_are_clean (parser : Type)
    (get : parser -> string -> string -> exn + string) (self : parser)
    (section option value : string) (w : World) :
  get self section option = inr value ->
  exists items,
    run (getlist get self section option) w = (Returned items, w)
    /\ forall x, In x items ->
         without "," x /\ without "010" x /\ without "013" x /\ stripped x.
Proof.
  intros Hget. exists (getlist_of_value value). split.
  - unfold getlist. rewrite Hget. reflexivity.
  - intros x Hx. unfold getlist_of_value in Hx.
    apply in_concat in Hx as (items & Hitems & Hx).
    apply in_map_iff in Hitems as (line & <- & Hline).
    apply in_map_iff in Hx as (piece & <- & Hpiece).
    apply filter_In in Hpiece as [Hpiece _].
    assert (Hl : forall a, is_linebreak a = true -> without a line).
    { intros a Ha.
      pose proof (str_splitlines_without a value (or_introl Ha)) as H.
      rewrite List.Forall_forall in H. apply H, Hline. }
    assert (Hp : forall a, (a = ","%char \/ without a line) -> without a piece).
    { intros a Ha.
      pose proof (str_split_without "," a line Ha) as H.
      rewrite List.Forall_forall in H. apply H, Hpiece. }
    assert (Hs : forall a, without a piece -> without a (str_strip piece)).
    { intros a Ha. apply str_rstrip_without, str_lstrip_without, Ha. }
    repeat split.
    + apply Hs, Hp. left. reflexivity.
    + apply Hs, Hp. right. apply Hl. reflexivity.
    + apply Hs, Hp. right. apply Hl. reflexivity.
    + apply str_strip_idem.
Qed.

Lemma getlist_items_are_clean_witness :
  exists items,
    run (getlist no_debug_options_get tt "argus" "dns_nameservers") console_listening
    = (Returned items, console_listening)
    /\ forall x, In x items ->
         without "," x /\ without "010" x /\ without "013" x /\ stripped x.
Proof.
  apply (getlist_items_are_clean unit no_debug_options_get tt "argus" "dns_nameservers"
           "10.0.0.1, 10.0.0.2" console_listening).
  reflexivity.
Defined.

(** X11.  A list written in the usual way reads back as it was: for items
    that are not empty and hold neither comma nor whitespace, written on one
    line with commas between them and any blanks around them, [getlist]
    returns exactly the items, in order. *)
Theorem getlist_reads_back (parser : Type)
    (get : parser -> string -> string -> exn + string) (self : parser)
    (section option : string) (xs ys : list string) (w : World) :
  Forall plain xs ->
  Forall (fun x => x <> EmptyString) xs ->
  Forall2 padded xs ys ->
  get self section option = inr (String.concat "," ys) ->
  run (getlist get self section option) w = (Returned xs, w).
Proof.
  intros Hplain Hne Hpad Hget. unfold getlist. rewrite Hget.
  cbn [lift bind run]. f_equal. f_equal. unfold getlist_of_value.
  destruct Hpad as [ | x y xs ys Hxy Hpad ]; [ reflexivity | ].
  assert (Hall : Forall2 padded (x :: xs) (y :: ys)) by (constructor; assumption).
  clear Hget.
  assert (Hys : forall a, a <> " "%char -> a <> "009"%char ->
                  (forall x0, In x0 (x :: xs) -> without a x0) ->
                  Forall (without a) (y :: ys)).
  { intros a H1 H2 Hx. clear -Hall H1 H2 Hx.
    induction Hall as [ | x0 y0 xs0 ys0 H0 _ IH ]; constructor.
    - eapply padded_without; [ exact H1 | exact H2 | | exact H0 ].
      apply Hx. left. reflexivity.
    - apply IH. intros z Hz. apply Hx. right. exact Hz. }
  rewrite List.Forall_forall in Hplain.
  assert (Hy0 : y <> EmptyString).
  { eapply padded_not_empty; [ | exact Hxy ].
    apply Forall_cons in Hne as [H _]. exact H. }
  rewrite str_splitlines_one.
  - cbn [map concat]. rewrite app_nil_r.
    rewrite str_split_concat;
      [ | discriminate
        | apply Hys; [ discriminate | discriminate | ];
          intros z Hz; apply plain_without_comma, Hplain, Hz ].
    rewrite filter_None_id.
    + clear -Hall Hplain.
      induction Hall as [ | x0 y0 xs0 ys0 H0 _ IH ]; [ reflexivity | ].
      cbn [map]. rewrite (padded_strip x0 y0);
        [ | apply Hplain; left; reflexivity | exact H0 ].
      f_equal. apply IH. intros z Hz. apply Hplain. right. exact Hz.
    + clear -Hall Hne.
      induction Hall as [ | x0 y0 xs0 ys0 H0 _ IH ]; constructor.
      * eapply padded_not_empty; [ | exact H0 ].
        apply Forall_cons in Hne as [H _]. exact H.
      * apply IH. apply Forall_cons in Hne as [_ H]. exact H.
  - destruct ys as [ | y' ys ]; [ exact Hy0 | ].
    rewrite concat_cons_not_nil by discriminate.
    destruct y; [ congruence | discriminate ].
  - apply without_concat; [ discriminate | ].
    apply Hys; [ discriminate | discriminate | ].
    intros z Hz. apply plain_without_space; [ reflexivity | apply Hplain, Hz ].
  - apply without_concat; [ discriminate | ].
    apply Hys; [ discriminate | discriminate | ].
    intros z Hz. apply plain_without_space; [ reflexivity | apply Hplain, Hz ].
Qed.

Lemma getlist_reads_back_witness :
  run (getlist no_debug_options_get tt "argus" "dns_nameservers") console_listening
  = (Returned ["10.0.0.1"; "10.0.0.2"], console_listening).
Proof.
  apply (getlist_reads_back unit no_debug_options_get tt "argus" "dns_nameservers"
           ["10.0.0.1"; "10.0.0.2"] ["10.0.0.1"; " 10.0.0.2"] console_listening).
  - repeat constructor; discriminate.
  - repeat constructor; discriminate.
  - constructor; [ exists EmptyString, EmptyString; repeat split | ].
    constructor; [ exists " ", EmptyString; repeat split; left; reflexivity | ].
    constructor.
  - reflexivity.
Defined.

Section config_rules.

Variable parser : Type.
Variable getboolean : parser -> string -> string -> exn + bool.
Variable getint : parser -> string -> string -> exn + Z.
Variable get : parser -> string -> string -> exn + string.
Variables (p : parser) (w : World).

Lemma run_get_default (t : option parser_type) (section option : string)
    (default : value_of t) :
  run (_get_default getboolean getint get t p section option default) w
  = (defaulted (reader_of getboolean getint get t p section option) default, w).
Proof.
  unfold _get_default, reader_of.
  destruct t as [[] | ]; rewrite run_try_except;
    match goal with |- context [lift ?r] => destruct r as [[] | v] end;
    reflexivity.
Qed.

Lemma run_get_default_or {T : Type} (section option : string) (default : T) :
  run (_get_default_or get p section option default) w
  = (defaulted (match get p section option with
                | inr v => inr (inl v)
                | inl e => inl e
                end) (inr default), w).
Proof.
  unfold _get_default_or. rewrite run_try_except.
  destruct (get p section option) as [[] | v]; reflexivity.
Qed.

Lemma defaulted_set_or_missing {T : Type} (r : exn + T) (default : T) :
  set_or_missing r -> defaulted r default = Returned (or_default r default).
Proof.
  intros H. destruct r as [e | v]; [ | reflexivity ].
  rewrite (H e eq_refl). reflexivity.
Qed.

End config_rules.

(** X12.  [ConfigurationParser.debug] defaults each option on its own:
    whichever of the four options of the section are set, the result holds
    the values read for those and [False], "127.0.0.1", 5555 and "authkey"
    for the missing ones, and reading it changes nothing. *)
Theorem ConfigurationParser_debug_fieldwise (parser : Type)
    (getboolean : parser -> string -> string -> exn + bool)
    (getint : parser -> string -> string -> exn + Z)
    (get : parser -> string -> string -> exn + string)
    (p : parser) (w : World) :
  set_or_missing (getboolean p "debug" "flag") ->
  set_or_missing (get p "debug" "ip") ->
  set_or_missing (getint p "debug" "port") ->
  set_or_missing (get p "debug" "authkey") ->
  run (ConfigurationParser_debug getboolean getint get p) w
  = (Returned {| flag := or_default (getboolean p "debug" "flag") false;
                 ip := or_default (get p "debug" "ip") "127.0.0.1";
                 port := or_default (getint p "debug" "port") 5555%Z;
                 authkey := or_default (get p "debug" "authkey") "authkey" |},
     w).
Proof.
  intros Hf Hi Hp Ha. unfold ConfigurationParser_debug.
  rewrite run_bind, run_get_default. cbn [reader_of].
  rewrite (defaulted_set_or_missing _ _ Hf). stepped.
  rewrite run_bind, run_get_default. cbn [reader_of].
  rewrite (defaulted_set_or_missing _ _ Hi). stepped.
  rewrite run_bind, run_get_default. cbn [reader_of].
  rewrite (defaulted_set_or_missing _ _ Hp). stepped.
  rewrite run_bind, run_get_default. cbn [reader_of].
  rewrite (defaulted_set_or_missing _ _ Ha). stepped.
  reflexivity.
Qed.

Lemma ConfigurationParser_debug_fieldwise_witness :
  run (ConfigurationParser_debug no_debug_options_getboolean
         no_debug_options_getint no_debug_options_get tt) console_listening
  = (Returned {| flag := false; ip := "127.0.0.1"; port := 5555%Z;
                 authkey := "authkey" |}, console_listening).
Proof.
  apply (ConfigurationParser_debug_fieldwise unit no_debug_options_getboolean
           no_debug_options_getint no_debug_options_get tt console_listening);
    intros e [= <-]; reflexivity.
Defined.

(** X13.  Only a missing option is defaulted.  Any other failure of a
    reader (the section itself is missing, the flag is no boolean, the port
    is no number) makes [ConfigurationParser.debug] fail with that error,
    the first one in the order flag, ip, port, authkey. *)
Theorem ConfigurationParser_debug_other_errors (parser : Type)
    (getboolean : parser -> string -> string -> exn + bool)
    (getint : parser -> string -> string -> exn + Z)
    (get : parser -> string -> string -> exn + string)
    (p : parser) (w : World) (e : exn) :
  e <> NoOptionError ->
  let debug := ConfigurationParser_debug getboolean getint get p in
  (getboolean p "debug" "flag" = inl e -> run debug w = (Raised e, w))
  /\ (set_or_missing (getboolean p "debug" "flag") ->
      get p "debug" "ip" = inl e -> run debug w = (Raised e, w))
  /\ (set_or_missing (getboolean p "debug" "flag") ->
      set_or_missing (get p "debug" "ip") ->
      getint p "debug" "port" = inl e -> run debug w = (Raised e, w))
  /\ (set_or_missing (getboolean p "debug" "flag") ->
      set_or_missing (get p "debug" "ip") ->
      set_or_missing (getint p "debug" "port") ->
      get p "debug" "authkey" = inl e -> run debug w = (Raised e, w)).
Proof.
  intros He debug.
  assert (Hd : forall T (d : T), defaulted (inl e) d = Raised e).
  { intros T d. destruct e; try reflexivity. congruence. }
  unfold debug, ConfigurationParser_debug. repeat split.
  - intros H. rewrite run_bind, run_get_default. cbn [reader_of].
    rewrite H, Hd. reflexivity.
  - intros Hf H. rewrite run_bind, run_get_default. cbn [reader_of].
    rewrite (defaulted_set_or_missing _ _ Hf). stepped.
    rewrite run_bind, run_get_default. cbn [reader_of].
    rewrite H, Hd. reflexivity.
  - intros Hf Hi H. rewrite run_bind, run_get_default. cbn [reader_of].
    rewrite (defaulted_set_or_missing _ _ Hf). stepped.
    rewrite run_bind, run_get_default. cbn [reader_of].
    rewrite (defaulted_set_or_missing _ _ Hi). stepped.
    rewrite run_bind, run_get_default. cbn [reader_of].
    rewrite H, Hd. reflexivity.
  - intros Hf Hi Hp H. rewrite run_bind, run_get_default. cbn [reader_of].
    rewrite (defaulted_set_or_missing _ _ Hf). stepped.
    rewrite run_bind, run_get_default. cbn [reader_of].
    rewrite (defaulted_set_or_missing _ _ Hi). stepped.
    rewrite run_bind, run_get_default. cbn [reader_of].
    rewrite (defaulted_set_or_missing _ _ Hp). stepped.
    rewrite run_bind, run_get_default. cbn [reader_of].
    rewrite H, Hd. reflexivity.
Qed.

Lemma ConfigurationParser_debug_other_errors_witness :
  run (ConfigurationParser_debug no_debug_section_getboolean
         no_debug_options_getint no_debug_options_get tt) console_listening
  = (Raised NoSectionError, console_listening).
Proof.
  apply (proj1 (ConfigurationParser_debug_other_errors unit
                  no_debug_section_getboolean no_debug_options_getint
                  no_debug_options_get tt console_listening NoSectionError
                  ltac:(discriminate))).
  reflexivity.
Defined.

(** X14.  In the [argus] section every option has a default but [pause]:
    it is read without one, so when it is missing, or is no boolean,
    [ConfigurationParser.argus] fails with the reader's error, whatever
    else the section holds. *)
Theorem ConfigurationParser_argus_needs_pause (parser : Type)
    (getboolean : parser -> string -> string -> exn + bool)
    (getint : parser -> string -> string -> exn + Z)
    (get : parser -> string -> string -> exn + string)
    (p : parser) (w : World) (e : exn) :
  set_or_missing (get p "argus" "resources") ->
  getboolean p "argus" "pause" = inl e ->
  run (ConfigurationParser_argus getboolean getint get p) w = (Raised e, w).
Proof.
  intros Hr Hp. unfold ConfigurationParser_argus.
  rewrite run_bind, run_get_default. cbn [reader_of].
  rewrite (defaulted_set_or_missing _ _ Hr). stepped.
  rewrite run_bind, Hp. reflexivity.
Qed.

Lemma ConfigurationParser_argus_needs_pause_witness :
  run (ConfigurationParser_argus (fun _ _ _ => inl NoOptionError)
         no_debug_options_getint no_debug_options_get tt) console_listening
  = (Raised NoOptionError, console_listening).
Proof.
  apply (ConfigurationParser_argus_needs_pause unit (fun _ _ _ => inl NoOptionError)
           no_debug_options_getint no_debug_options_get tt console_listening
           NoOptionError).
  - intros e [= <-]. reflexivity.
  - reflexivity.
Defined.

(** X15.  With [pause] set, [ConfigurationParser.argus] returns, with the
    defaults of the missing options: the resources link, the name servers
    8.8.8.8 and 8.8.4.4, "Beta", "x64", and [None] for the others.  Name
    servers that are set are cut at the commas and at nothing else: no piece
    holds a comma, and the pieces put together with commas are the value as
    it was written, blanks included. *)
Theorem ConfigurationParser_argus_fieldwise (parser : Type)
    (getboolean : parser -> string -> string -> exn + bool)
    (getint : parser -> string -> string -> exn + Z)
    (get : parser -> string -> string -> exn + string)
    (p : parser) (w : World) (b : bool) :
  getboolean p "argus" "pause" = inr b ->
  (forall option, set_or_missing (get p "argus" option)) ->
  let text option := match get p "argus" option with
                     | inr v => Some v
                     | inl _ => None
                     end in
  let servers := match get p "argus" "dns_nameservers" with
                 | inr v => str_split "," v
                 | inl _ => ["8.8.8.8"; "8.8.4.4"]
                 end in
  run (ConfigurationParser_argus getboolean getint get p) w
  = (Returned {| resources := or_default (get p "argus" "resources") RESOURCES_LINK;
                 pause := b;
                 file_log := text "file_log";
                 log_format := text "log_format";
                 dns_nameservers := servers;
                 output_directory := text "output_directory";
                 build := or_default (get p "argus" "build") "Beta";
                 arch := or_default (get p "argus" "arch") "x64";
                 patch_install := text "patch_install";
                 git_command := text "git_command" |}, w)
  /\ Forall (without ",") servers
  /\ (forall v, get p "argus" "dns_nameservers" = inr v ->
        String.concat "," servers = v).
Proof.
  intros Hp Hall text servers. split; [ | split ].
  - assert (Hor : forall T (d : T) option,
              run (_get_default_or get p "argus" option d) w
              = (Returned (match get p "argus" option with
                           | inr v => inl v
                           | inl _ => inr d
                           end), w)).
    { intros T d option. rewrite run_get_default_or.
      pose proof (Hall option) as H.
      destruct (get p "argus" option) as [e | v]; [ | reflexivity ].
      rewrite (H e eq_refl). reflexivity. }
    unfold ConfigurationParser_argus.
    rewrite run_bind, run_get_default. cbn [reader_of].
    rewrite (defaulted_set_or_missing _ _ (Hall "resources")). stepped.
    rewrite run_bind, Hp. cbn [lift run]. stepped.
    rewrite run_bind, Hor. stepped.
    rewrite run_bind, Hor. stepped.
    rewrite run_bind, Hor. stepped.
    rewrite run_bind, Hor. stepped.
    rewrite run_bind, run_get_default. cbn [reader_of].
    rewrite (defaulted_set_or_missing _ _ (Hall "build")). stepped.
    rewrite run_bind, run_get_default. cbn [reader_of].
    rewrite (defaulted_set_or_missing _ _ (Hall "arch")). stepped.
    rewrite run_bind, Hor. stepped.
    rewrite run_bind, Hor. stepped.
    cbn [run]. unfold text, servers, str_or_None.
    repeat match goal with
           | |- context [get p "argus" ?o] => destruct (get p "argus" o)
           end; reflexivity.
  - unfold servers. destruct (get p "argus" "dns_nameservers") as [ e | v ].
    + repeat constructor; discriminate.
    + apply str_split_without. left. reflexivity.
  - intros v Hv. unfold servers. rewrite Hv. apply (concat_str_split ",").
Qed.

Lemma ConfigurationParser_argus_fieldwise_witness :
  run (ConfigurationParser_argus no_debug_options_getboolean
         no_debug_options_getint no_debug_options_get tt) console_listening
  = (Returned {| resources := RESOURCES_LINK;
                 pause := true;
                 file_log := None;
                 log_format := None;
                 dns_nameservers := ["10.0.0.1"; " 10.0.0.2"];
                 output_directory := None;
                 build := "Beta";
                 arch := "x64";
                 patch_install := None;
                 git_command := None |}, console_listening).
Proof.
  apply (ConfigurationParser_argus_fieldwise unit no_debug_options_getboolean
           no_debug_options_getint no_debug_options_get tt console_listening true).
  - reflexivity.
  - intros option e. unfold no_debug_options_get. cbn [decide].
    repeat case_decide; try discriminate; intros [= <-]; reflexivity.
Defined.


(** ** argus/util.py: [run_once] *)

Lemma run_attempt {A : Type} (p : Prog A) (w : World) :
  run (attempt p) w =
  match run p w with
  | (Returned a, w') => (Returned (inr a), w')
  | (Raised e, w') => (Returned (inl e), w')
  | (Blocked k, w') => (Blocked (attempt k), w')
  | (Truncated, w') => (Truncated, w')
  end.
Proof.
  unfold attempt. rewrite run_try_except, run_bind.
  destruct (run p w) as [[a | e | k | ] w']; reflexivity.
Qed.

(** What a call of the wrapper that returns has done: the answer came from
    one of the dictionaries, which are then as before, or the function ran
    and its outcome went into the dictionary that fits. *)
Lemma run_once_returned (f : function_object) (m m1 : memo)
    (args : list pyval) (kwargs : list (string * pyval))
    (r : exn + pyval) (w w1 : World) :
  run (run_once f m args kwargs) w = (Returned (m1, r), w1) ->
  (m1 = m /\ w1 = w /\
   ((exists e, r = inl e /\ errors m !! fid f = Some e) \/
    (exists v, r = inr v /\ errors m !! fid f = None /\
               state m !! fid f = Some v))) \/
  (errors m !! fid f = None /\ state m !! fid f = None /\
   ((exists v, r = inr v /\
       run (call (func f) args kwargs) w = (Returned v, w1) /\
       m1 = {| state := <[fid f := v]> (state m); errors := errors m |}) \/
    (exists e, r = inl e /\
       run (call (func f) args kwargs) w = (Raised e, w1) /\
       m1 = {| state := state m; errors := <[fid f := e]> (errors m) |}))).
Proof.
  unfold run_once.
  destruct (errors m !! fid f) as [e |] eqn:He.
  { simpl. intros [= <- <- <-]. left. repeat split. left. eauto. }
  destruct (state m !! fid f) as [v |] eqn:Hv.
  { simpl. intros [= <- <- <-]. left. repeat split. right. eauto. }
  rewrite run_bind, run_attempt.
  destruct (run (call (func f) args kwargs) w) as [[v | e | k | ] w'];
    simpl; intros [= <- <- <-]; right; repeat split; eauto.
Qed.

(** X16. Once a call of a function decorated with [run_once] has come
    back, with a value or with an exception, the function is never run
    again: every later call, with whatever arguments and in whatever world,
    gives the same value or the same exception, leaves the dictionaries as
    they are and does nothing to the world. *)
Theorem run_once_never_calls_again (f : function_object) (m m1 : memo)
    (args : list pyval) (kwargs : list (string * pyval))
    (r : exn + pyval) (w w1 : World) :
  run (run_once f m args kwargs) w = (Returned (m1, r), w1) ->
  forall (args' : list pyval) (kwargs' : list (string * pyval)) (w' : World),
    run (run_once f m1 args' kwargs') w' = (Returned (m1, r), w').
Proof.
  intros H args' kwargs' w'. apply run_once_returned in H.
  unfold run_once.
  destruct H as [(-> & _ & [(e & -> & He) | (v & -> & He & Hv)])
                | (He & Hv & [(v & -> & _ & ->) | (e & -> & _ & ->)])]; cbn [state errors].
  - rewrite He. reflexivity.
  - rewrite He, Hv. reflexivity.
  - rewrite He, lookup_insert_eq. reflexivity.
  - rewrite lookup_insert_eq. reflexivity.
Qed.

Lemma run_once_never_calls_again_witness :
  run (run_once failing_object
         {| state := ∅; errors := {[ 2 := IOError ]} |} [PInt 1] [])
      console_listening
  = (Returned ({| state := ∅; errors := {[ 2 := IOError ]} |}, inl IOError),
     console_listening).
Proof.
  apply (run_once_never_calls_again failing_object empty_memo _ [] [] _
           before_start (emit [ELog LOG INFO "about to fail"] before_start)).
  reflexivity.
Defined.

(** X17. The two dictionaries of [run_once] are shared by all decorated
    functions, and a call for one of them keeps them in order: the entries
    of every other function are left as they are, no function gets into
    both dictionaries, and what the call gives back is what the
    dictionaries hold for the function afterwards. *)
Theorem run_once_keeps_dictionaries_apart (f : function_object) (m m1 : memo)
    (args : list pyval) (kwargs : list (string * pyval))
    (r : exn + pyval) (w w1 : World) :
  coherent m ->
  run (run_once f m args kwargs) w = (Returned (m1, r), w1) ->
  coherent m1 /\
  (forall k, k <> fid f ->
     state m1 !! k = state m !! k /\ errors m1 !! k = errors m !! k) /\
  match r with
  | inr v => state m1 !! fid f = Some v /\ errors m1 !! fid f = None
  | inl e => errors m1 !! fid f = Some e /\ state m1 !! fid f = None
  end.
Proof.
  intros Hm H. apply run_once_returned in H.
  destruct H as [(-> & _ & [(e & -> & He) | (v & -> & He & Hv)])
                | (He & Hv & [(v & -> & _ & ->) | (e & -> & _ & ->)])];
    cbn [state errors].
  - repeat split; try assumption.
    destruct (Hm (fid f)) as [H | H]; [assumption | congruence].
  - repeat split; assumption.
  - repeat split.
    + intros k. cbn [state errors]. destruct (decide (k = fid f)) as [-> | Hk].
      * right. assumption.
      * rewrite lookup_insert_ne by congruence. apply Hm.
    + rewrite lookup_insert_ne by congruence. reflexivity.
    + apply lookup_insert_eq.
    + assumption.
  - repeat split.
    + intros k. cbn [state errors]. destruct (decide (k = fid f)) as [-> | Hk].
      * left. assumption.
      * rewrite lookup_insert_ne by congruence. apply Hm.
    + rewrite lookup_insert_ne by congruence. reflexivity.
    + apply lookup_insert_eq.
    + assumption.
Qed.

Lemma run_once_keeps_dictionaries_apart_witness :
  coherent failed_after_answer /\
  (forall k, k <> fid failing_object ->
     state failed_after_answer !! k = state answer_cached !! k /\
     errors failed_after_answer !! k = errors answer_cached !! k) /\
  errors failed_after_answer !! fid failing_object = Some IOError /\
  state failed_after_answer !! fid failing_object = None.
Proof.
  apply (run_once_keeps_dictionaries_apart failing_object answer_cached
           failed_after_answer [] [] (inl IOError) before_start
           (emit [ELog LOG INFO "about to fail"] before_start)).
  - intros k. right. reflexivity.
  - reflexivity.
Defined.

(** ** argus/util.py: [cached_property] *)

(** X18. A [cached_property] that is held by the class under its own name
    runs its function once per instance: when an access has returned, every
    later access of the same instance gives the same value, runs nothing and
    leaves the instance as it is. *)
Theorem cached_property_computes_once (self : cached_property) (attr : string)
    (inst inst1 : instance) (v : pyval) (w w1 : World) :
  cp_name self = attr ->
  run (getattr self attr inst) w = (Returned (v, inst1), w1) ->
  forall w' : World, run (getattr self attr inst1) w' = (Returned (v, inst1), w').
Proof.
  intros <- H w'. unfold getattr in *.
  destruct (__dict__ inst !! cp_name self) as [v0 |] eqn:Hd.
  - simpl in H. injection H as <- <- <-. rewrite Hd. reflexivity.
  - unfold cached_property__get__ in H. rewrite run_bind in H.
    destruct (run (cp_func self inst) w) as [[r | e | k | ] w2];
      simpl in H; try discriminate H.
    injection H as <- <- <-. cbn [__dict__].
    rewrite lookup_insert_eq. reflexivity.
Qed.

Lemma cached_property_computes_once_witness :
  run (getattr remote_client "remote_client"
         {| __dict__ := {[ "remote_client" := PInt 7 ]} |}) console_listening
  = (Returned (PInt 7, {| __dict__ := {[ "remote_client" := PInt 7 ]} |}),
     console_listening).
Proof.
  apply (cached_property_computes_once remote_client "remote_client"
           no_attributes _ (PInt 7) before_start
           (emit [ELog LOG INFO "connecting"] before_start)).
  - reflexivity.
  - reflexivity.
Defined.

(** X19. A [cached_property] that is held by the class under another name
    than its own caches nothing that an access can find: the value goes into
    the instance's [__dict__] under the property's name, the attribute stays
    unset, and the next access runs the function again. *)
Theorem cached_property_other_name_recomputes (self : cached_property)
    (attr : string) (inst inst1 : instance) (v : pyval) (w w1 : World) :
  cp_name self <> attr ->
  __dict__ inst !! attr = None ->
  run (getattr self attr inst) w = (Returned (v, inst1), w1) ->
  run (cp_func self inst) w = (Returned v, w1) /\
  __dict__ inst1 !! cp_name self = Some v /\
  __dict__ inst1 !! attr = None /\
  forall w' : World,
    run (getattr self attr inst1) w'
    = run (result <- cp_func self inst1 ;;
           Ret (result,
                {| __dict__ := <[cp_name self := result]> (__dict__ inst1) |})) w'.
Proof.
  intros Hn Hd H. unfold getattr in *. rewrite Hd in H.
  unfold cached_property__get__ in *. rewrite run_bind in H.
  destruct (run (cp_func self inst) w) as [[r | e | k | ] w2];
    simpl in H; try discriminate H.
  injection H as <- <- <-. cbn [__dict__].
  rewrite lookup_insert_eq, lookup_insert_ne, Hd by assumption.
  repeat split.
Qed.

Lemma cached_property_other_name_recomputes_witness :
  run (getattr unnamed_remote_client "remote_client"
         {| __dict__ := {[ "get_remote_client" := PInt 7 ]} |}) console_listening
  = (Returned (PInt 7, {| __dict__ := {[ "get_remote_client" := PInt 7 ]} |}),
     emit [ELog LOG INFO "connecting"] console_listening).
Proof.
  assert (H := cached_property_other_name_recomputes unnamed_remote_client
                 "remote_client" no_attributes
                 {| __dict__ := {[ "get_remote_client" := PInt 7 ]} |} (PInt 7)
                 before_start (emit [ELog LOG INFO "connecting"] before_start)).
  destruct H as (_ & _ & _ & H).
  - vm_compute; discriminate.
  - reflexivity.
  - reflexivity.
  - rewrite H. cbn. rewrite insert_singleton_eq. reflexivity.
Defined.

(** ** argus/util.py: [get_command] *)

(** X20. [get_command] changes the command of seven command types only:
    with no type, or with any other one ([cmd], [bat] and
    [powershell_script_restricted] among them, which have no entry in
    [COMMAND_MODIFIERS]), the command comes back as it was given. *)
Theorem get_command_leaves_other_types (b64encode_utf16le : string -> string)
    (command : string) (command_type : option string) :
  (forall t, command_type = Some t -> t ∉ modified_types) ->
  get_command b64encode_utf16le command command_type = command.
Proof.
  intros H. unfold get_command. destruct command_type as [t |]; [ | reflexivity ].
  specialize (H t eq_refl). unfold modified_types in H.
  unfold COMMAND_MODIFIERS.
  rewrite !lookup_insert_ne, lookup_empty;
    [ reflexivity | intros E; apply H; rewrite <- E; set_solver .. ].
Qed.

Lemma get_command_leaves_other_types_witness :
  get_command (fun s => s) "C:\\install.ps1" (Some POWERSHELL_SCRIPT_RESTRICTED)
  = "C:\\install.ps1".
Proof.
  apply (get_command_leaves_other_types (fun s => s)).
  intros t [= <-]. unfold modified_types.
  rewrite !not_elem_of_cons. repeat split; try discriminate.
  apply not_elem_of_nil.
Defined.

(** X21. Only the type [powershell] encodes the command.  For every other
    type [get_command] puts a prefix that depends on the type alone in
    front of the command, which is passed on as it is, unquoted, and the
    encoder plays no part. *)
Theorem get_command_prefixes_script (command_type : option string) :
  command_type <> Some POWERSHELL ->
  exists prefix : string,
    forall (b64encode_utf16le : string -> string) (command : string),
      get_command b64encode_utf16le command command_type = prefix +:+ command.
Proof.
  intros Hn. destruct command_type as [t |]; [ | exists ""; reflexivity ].
  assert (H0 : t <> POWERSHELL) by congruence.
  destruct (decide (t = POWERSHELL_SCRIPT)) as [-> | H1];
    [ exists "powershell -File " | ].
  2: destruct (decide (t = POWERSHELL_SCRIPT_ALLSIGNED)) as [-> | H2];
    [ exists "powershell -ExecutionPolicy AllSigned -File " | ].
  3: destruct (decide (t = POWERSHELL_SCRIPT_REMOTESIGNED)) as [-> | H3];
    [ exists "powershell -ExecutionPolicy RemoteSigned -File " | ].
  4: destruct (decide (t = POWERSHELL_SCRIPT_UNRESTRICTED)) as [-> | H4];
    [ exists "powershell -ExecutionPolicy Unrestricted -File " | ].
  5: destruct (decide (t = POWERSHELL_SCRIPT_BYPASS)) as [-> | H5];
    [ exists "powershell -ExecutionPolicy Bypass -File " | ].
  6: destruct (decide (t = POWERSHELL_SCRIPT_UNDEFINED)) as [-> | H6];
    [ exists "powershell -ExecutionPolicy Undefined -File " | exists "" ].
  all: intros b64encode_utf16le command; unfold get_command, COMMAND_MODIFIERS;
    repeat (rewrite lookup_insert_ne by congruence);
    rewrite ?lookup_insert_eq, ?lookup_empty; reflexivity.
Qed.

Lemma get_command_prefixes_script_witness :
  exists prefix : string,
    forall (b64encode_utf16le : string -> string) (command : string),
      get_command b64encode_utf16le command (Some POWERSHELL_SCRIPT_BYPASS)
      = prefix +:+ command.
Proof.
  apply (get_command_prefixes_script (Some POWERSHELL_SCRIPT_BYPASS)).
  discriminate.
Defined.

(** ** argus/util.py: [next_ip] and [cidr2netmask] *)

Local Open Scope Z_scope.

Lemma Z_of_byte_range (b : Byte.byte) : 0 <= Z_of_byte b < 256.
Proof.
  unfold Z_of_byte. pose proof (Byte.to_N_bounded b). lia.
Qed.

Lemma byte_of_Z_of_byte (b : Byte.byte) (k : Z) :
  byte_of_Z (Z_of_byte b + 256 * k) = b.
Proof.
  unfold byte_of_Z. pose proof (Z_of_byte_range b) as Hb.
  replace ((Z_of_byte b + 256 * k) mod 256) with (Z_of_byte b).
  - unfold Z_of_byte. rewrite N2Z.id, Byte.of_to_N. reflexivity.
  - rewrite (Z.mul_comm 256 k), Z.mod_add by lia.
    symmetry. apply Z.mod_small. exact Hb.
Qed.

Lemma Z_of_byte_of_Z (z : Z) : Z_of_byte (byte_of_Z z) = z mod 256.
Proof.
  unfold byte_of_Z, Z_of_byte.
  pose proof (Z.mod_pos_bound z 256 ltac:(lia)) as Hz.
  destruct (Byte.of_N (Z.to_N (z mod 256))) as [y |] eqn:Hy.
  - apply Byte.to_of_N in Hy. simpl. rewrite Hy. apply Z2N.id. lia.
  - apply Byte.of_N_None_iff in Hy. lia.
Qed.

Lemma struct_pack_unpack (data : packed) :
  struct_pack (struct_unpack data) = inr data.
Proof.
  destruct data as [[[b3 b2] b1] b0]. unfold struct_pack, struct_unpack.
  pose proof (Z_of_byte_range b3) as R3. pose proof (Z_of_byte_range b2) as R2.
  pose proof (Z_of_byte_range b1) as R1. pose proof (Z_of_byte_range b0) as R0.
  set (n := Z_of_byte b3 * 2 ^ 24 + Z_of_byte b2 * 2 ^ 16
            + Z_of_byte b1 * 2 ^ 8 + Z_of_byte b0).
  assert (H24 : n / 2 ^ 24 = Z_of_byte b3 + 256 * 0).
  { subst n. symmetry. rewrite Z.add_0_r. apply Z.div_unique_pos with
      (r := Z_of_byte b2 * 2 ^ 16 + Z_of_byte b1 * 2 ^ 8 + Z_of_byte b0); lia. }
  assert (H16 : n / 2 ^ 16 = Z_of_byte b2 + 256 * Z_of_byte b3).
  { subst n. symmetry. apply Z.div_unique_pos with
      (r := Z_of_byte b1 * 2 ^ 8 + Z_of_byte b0); lia. }
  assert (H8 : n / 2 ^ 8
               = Z_of_byte b1 + 256 * (Z_of_byte b2 + 256 * Z_of_byte b3)).
  { subst n. symmetry. apply Z.div_unique_pos with (r := Z_of_byte b0); lia. }
  assert (H0 : n = Z_of_byte b0
                   + 256 * (Z_of_byte b1
                            + 256 * (Z_of_byte b2 + 256 * Z_of_byte b3))).
  { subst n. lia. }
  assert (Hr : (0 <=? n) && (n <? 2 ^ 32) = true).
  { apply andb_true_intro. split; [ apply Z.leb_le | apply Z.ltb_lt ]; lia. }
  rewrite Hr, H24, H16, H8. rewrite H0.
  rewrite !byte_of_Z_of_byte. reflexivity.
Qed.

Lemma struct_pack_cases (number : Z) :
  (0 <= number < 2 ^ 32 /\
   exists data, struct_pack number = inr data /\ struct_unpack data = number) \/
  ((number < 0 \/ 2 ^ 32 <= number) /\ struct_pack number = inl struct_error).
Proof.
  unfold struct_pack.
  destruct (Z.leb_spec 0 number) as [Hlo | Hlo];
    [ destruct (Z.ltb_spec number (2 ^ 32)) as [Hhi | Hhi] | ]; cbn [andb].
  - left. split; [ lia | ]. eexists. split; [ reflexivity | ].
    unfold struct_unpack. rewrite !Z_of_byte_of_Z.
    change (2 ^ 24) with (256 * 256 * 256) in *.
    change (2 ^ 16) with (256 * 256) in *.
    change (2 ^ 8) with 256 in *. change (2 ^ 32) with (256 * 256 * 256 * 256) in *.
    rewrite <- !Z.div_div by lia.
    pose proof (Z.div_mod number 256 ltac:(lia)) as E0.
    pose proof (Z.div_mod (number / 256) 256 ltac:(lia)) as E1.
    pose proof (Z.div_mod (number / 256 / 256) 256 ltac:(lia)) as E2.
    assert (E3 : (number / 256 / 256 / 256) mod 256 = number / 256 / 256 / 256).
    { apply Z.mod_small. split.
      - repeat apply Z.div_pos; lia.
      - repeat (apply Z.div_lt_upper_bound; [ lia | ]). lia. }
    lia.
  - right. split; [ lia | reflexivity ].
  - right. split; [ lia | reflexivity ].
Qed.

Lemma struct_unpack_range (data : packed) : 0 <= struct_unpack data < 2 ^ 32.
Proof.
  destruct (struct_pack_cases (struct_unpack data)) as [[H _] | [_ H]];
    [ exact H | ].
  rewrite struct_pack_unpack in H. discriminate H.
Qed.

(** X22. [next_ip] does not wrap around and does not stop at the end of
    an octet: for an address that [inet_aton] reads, the answer is the
    address whose number is the old number plus the step as long as that is
    a 32-bit number, and [struct.error] is raised as soon as it is not (one
    step after 255.255.255.255, one step back from 0.0.0.0). *)
Theorem next_ip_does_not_wrap (inet_aton : string -> option packed)
    (ip : string) (step : Z) (data : packed) :
  inet_aton ip = Some data ->
  (0 <= struct_unpack data + step < 2 ^ 32 ->
   exists data', next_ip inet_aton ip step = inr (inet_ntoa data') /\
                 struct_unpack data' = struct_unpack data + step) /\
  (struct_unpack data + step < 0 \/ 2 ^ 32 <= struct_unpack data + step ->
   next_ip inet_aton ip step = inl struct_error).
Proof.
  intros Hip. unfold next_ip. rewrite Hip.
  destruct (struct_pack_cases (struct_unpack data + step))
    as [[Hr (data' & Hp & Hu)] | [Hr Hp]]; rewrite Hp; cbn [and_then]; split.
  - intros _. exists data'. split; [ reflexivity | exact Hu ].
  - intros H. lia.
  - intros H. lia.
  - intros _. reflexivity.
Qed.

Lemma next_ip_does_not_wrap_witness :
  next_ip three_addresses "255.255.255.255" 1 = inl struct_error.
Proof.
  apply (proj2 (next_ip_does_not_wrap three_addresses "255.255.255.255" 1
                  (Byte.xff, Byte.xff, Byte.xff, Byte.xff) eq_refl)).
  right. vm_compute. discriminate.
Defined.

(** X23. Steps of [next_ip] add up: going on by [b] from the address that
    [next_ip] gave for a step [a] is going by [a + b] from the first
    address, error included, provided [inet_aton] reads the address in
    between as [inet_ntoa] wrote it. *)
Theorem next_ip_steps_add (inet_aton : string -> option packed)
    (ip : string) (a b : Z) (data between : packed) :
  inet_aton ip = Some data ->
  struct_pack (struct_unpack data + a) = inr between ->
  inet_aton (inet_ntoa between) = Some between ->
  and_then (next_ip inet_aton ip a) (fun ip' => next_ip inet_aton ip' b)
  = next_ip inet_aton ip (a + b).
Proof.
  intros Hip Hp Hb. unfold next_ip at 1. rewrite Hip, Hp. cbn [and_then].
  unfold next_ip. rewrite Hb, Hip.
  destruct (struct_pack_cases (struct_unpack data + a))
    as [[_ (data' & Hp' & Hu)] | [_ Hp']]; rewrite Hp in Hp'; [ | discriminate Hp' ].
  injection Hp' as <-. rewrite Hu, Z.add_assoc. reflexivity.
Qed.

Lemma next_ip_steps_add_witness :
  and_then (next_ip three_addresses "10.0.0.255" 1)
    (fun ip' => next_ip three_addresses ip' (-1))
  = next_ip three_addresses "10.0.0.255" (1 + -1).
Proof.
  apply (next_ip_steps_add three_addresses "10.0.0.255" 1 (-1)
           (Byte.x0a, Byte.x00, Byte.x00, Byte.xff)
           (Byte.x0a, Byte.x00, Byte.x01, Byte.x00)).
  - reflexivity.
  - vm_compute. reflexivity.
  - vm_compute. reflexivity.
Defined.

Lemma binary_value_ones (n : nat) (acc : Z) (s : string) :
  binary_value acc (str_repeat "1" n +:+ s)
  = binary_value (acc * 2 ^ Z.of_nat n + 2 ^ Z.of_nat n - 1) s.
Proof.
  revert acc. induction n as [ | n IH ]; intros acc.
  - simpl. f_equal. lia.
  - cbn [str_repeat].
    change (String "1" (str_repeat "1" n) +:+ s)
      with (String "1" (str_repeat "1" n +:+ s)).
    cbn [binary_value]. change (Ascii.eqb "1" "0") with false.
    change (Ascii.eqb "1" "1") with true. cbv iota.
    rewrite IH. f_equal. rewrite Nat2Z.inj_succ, Z.pow_succ_r by lia. lia.
Qed.

Lemma binary_value_zeros (n : nat) (acc : Z) :
  binary_value acc (str_repeat "0" n) = Some (acc * 2 ^ Z.of_nat n).
Proof.
  revert acc. induction n as [ | n IH ]; intros acc.
  - simpl. f_equal. lia.
  - cbn [str_repeat binary_value]. change (Ascii.eqb "0" "0") with true.
    cbv iota. rewrite IH. f_equal.
    rewrite Nat2Z.inj_succ, Z.pow_succ_r by lia. lia.
Qed.

Lemma int_2_mask_bits (ones zeros : nat) :
  (0 < ones + zeros)%nat ->
  int_2 (str_repeat "1" ones +:+ str_repeat "0" zeros)
  = inr ((2 ^ Z.of_nat ones - 1) * 2 ^ Z.of_nat zeros).
Proof.
  intros Hpos. unfold int_2.
  rewrite binary_value_ones, binary_value_zeros.
  destruct ones as [ | ones ]; [ destruct zeros as [ | zeros ]; [ lia | ] | ];
    cbn [str_repeat]; reflexivity.
Qed.

Lemma append_empty_r (s : string) : s +:+ "" = s.
Proof.
  induction s as [ | a s IH ]; [ reflexivity | ].
  change (String a (s +:+ "") = String a s). rewrite IH. reflexivity.
Qed.

Lemma str_add_mask_bits (memory : Z) (ones zeros : nat) :
  (ones = 0%nat \/ zeros = 0%nat \/ Z.of_nat ones + Z.of_nat zeros <= memory) ->
  str_add memory (str_repeat "1" ones) (str_repeat "0" zeros)
  = inr (str_repeat "1" ones +:+ str_repeat "0" zeros).
Proof.
  intros H. destruct ones as [ | ones ]; [ reflexivity | ].
  destruct zeros as [ | zeros ].
  { cbn [str_repeat str_add]. rewrite append_empty_r. reflexivity. }
  destruct H as [H | [H | H]]; [ discriminate H | discriminate H | ].
  change (str_add memory (str_repeat "1" (S ones)) (str_repeat "0" (S zeros)))
    with (if Z.of_N (len (str_repeat "1" (S ones)))
             + Z.of_N (len (str_repeat "0" (S zeros))) <=? memory
          then inr (str_repeat "1" (S ones) +:+ str_repeat "0" (S zeros))
          else @inl net_exn string MemoryError).
  unfold len. rewrite !len_str_repeat, !nat_N_Z.
  rewrite (proj2 (Z.leb_le _ _) H). reflexivity.
Qed.

(** X24. What [cidr2netmask] does with the mask length [n] that [int]
    reads after the first slash, on a machine that has memory for strings of
    [memory] characters and no longer ones.  From 0 to 32 the answer is the
    mask of [n] leading one bits.  A negative length is not refused: as long
    as the 32 - [n] zeros fit into memory, the answer is 0.0.0.0.  A length
    above 32 never gives a mask: it raises [struct.error] as long as the
    [n] ones fit into memory.  Beyond that, on either side, the string is
    not built and the call raises [MemoryError] or [OverflowError]. *)
Theorem cidr2netmask_by_length (int : string -> option Z) (maxsize memory : Z)
    (cidr piece : string) (n : Z) :
  str_split "/" cidr !! 1%nat = Some piece ->
  int piece = Some n ->
  32 <= memory <= maxsize ->
  (0 <= n <= 32 ->
   exists data, cidr2netmask int maxsize memory cidr = inr (inet_ntoa data) /\
                struct_unpack data = 2 ^ 32 - 2 ^ (32 - n)) /\
  (32 - memory <= n < 0 ->
   cidr2netmask int maxsize memory cidr = inr "0.0.0.0"%string) /\
  (32 < n <= memory -> cidr2netmask int maxsize memory cidr = inl struct_error) /\
  (n < 32 - memory \/ memory < n ->
   exists e, cidr2netmask int maxsize memory cidr = inl e /\
             (e = MemoryError \/ e = OverflowError)).
Proof.
  intros Hpiece Hint Hmem. unfold cidr2netmask. rewrite Hpiece, Hint.
  unfold str_mul. repeat split.
  - intros Hn.
    rewrite (proj2 (andb_true_iff _ _)), (proj2 (Z.leb_le n memory)),
      (proj2 (andb_true_iff _ _)), (proj2 (Z.leb_le (32 - n) memory))
      by (try split; try apply Z.leb_le; lia).
    cbn [and_then]. rewrite str_add_mask_bits by lia.
    cbn [and_then]. rewrite int_2_mask_bits by lia. cbn [and_then].
    rewrite !Z2Nat.id by lia.
    assert (Hv : (2 ^ n - 1) * 2 ^ (32 - n) = 2 ^ 32 - 2 ^ (32 - n)).
    { rewrite Z.mul_sub_distr_r, <- Z.pow_add_r by lia.
      replace (n + (32 - n)) with 32 by lia. lia. }
    rewrite Hv.
    assert (Hpow : 0 < 2 ^ (32 - n) <= 2 ^ 32).
    { split; [ apply Z.pow_pos_nonneg; lia | apply Z.pow_le_mono_r; lia ]. }
    destruct (struct_pack_cases (2 ^ 32 - 2 ^ (32 - n)))
      as [[_ (data & Hp & Hu)] | [Hr _]]; [ | lia ].
    rewrite Hp. cbn [and_then]. exists data. split; [ reflexivity | exact Hu ].
  - intros Hn.
    rewrite (proj2 (andb_true_iff _ _)), (proj2 (Z.leb_le n memory)),
      (proj2 (andb_true_iff _ _)), (proj2 (Z.leb_le (32 - n) memory))
      by (try split; try apply Z.leb_le; lia).
    cbn [and_then]. rewrite str_add_mask_bits by lia.
    cbn [and_then]. rewrite int_2_mask_bits by lia. cbn [and_then].
    rewrite (Z2Nat.id (32 - n)) by lia.
    replace (Z.of_nat (Z.to_nat n)) with 0 by lia.
    change (2 ^ 0 - 1) with 0. rewrite Z.mul_0_l. reflexivity.
  - intros Hn.
    rewrite (proj2 (andb_true_iff _ _)), (proj2 (Z.leb_le n memory)),
      (proj2 (andb_true_iff _ _)), (proj2 (Z.leb_le (32 - n) memory))
      by (try split; try apply Z.leb_le; lia).
    cbn [and_then]. rewrite str_add_mask_bits by lia.
    cbn [and_then]. rewrite int_2_mask_bits by lia. cbn [and_then].
    rewrite (Z2Nat.id n) by lia.
    replace (Z.of_nat (Z.to_nat (32 - n))) with 0 by lia.
    change (2 ^ 0) with 1. rewrite Z.mul_1_r.
    assert (Hpow : 2 ^ 33 <= 2 ^ n) by (apply Z.pow_le_mono_r; lia).
    destruct (struct_pack_cases (2 ^ n - 1)) as [[Hr _] | [_ Hp]]; [ lia | ].
    rewrite Hp. reflexivity.
  - intros [Hn | Hn].
    + destruct ((- maxsize - 1 <=? n) && (n <=? maxsize)); cbn [and_then];
        [ | eexists; split; [ reflexivity | right; reflexivity ] ].
      rewrite (proj2 (Z.leb_le n memory)) by lia. cbn [and_then].
      destruct ((- maxsize - 1 <=? 32 - n) && (32 - n <=? maxsize)); cbn [and_then];
        [ | eexists; split; [ reflexivity | right; reflexivity ] ].
      rewrite (proj2 (Z.leb_gt (32 - n) memory)) by lia. cbn [and_then].
      eexists; split; [ reflexivity | left; reflexivity ].
    + destruct ((- maxsize - 1 <=? n) && (n <=? maxsize)); cbn [and_then];
        [ | eexists; split; [ reflexivity | right; reflexivity ] ].
      rewrite (proj2 (Z.leb_gt n memory)) by lia. cbn [and_then].
      eexists; split; [ reflexivity | left; reflexivity ].
Qed.

Lemma cidr2netmask_by_length_witness :
  exists data,
    cidr2netmask int_of_digits (2 ^ 63 - 1) (2 ^ 30) "192.168.1.0/24"
    = inr (inet_ntoa data) /\
    struct_unpack data = 2 ^ 32 - 2 ^ (32 - 24).
Proof.
  apply (proj1 (cidr2netmask_by_length int_of_digits (2 ^ 63 - 1) (2 ^ 30)
                  "192.168.1.0/24" "24" 24 eq_refl eq_refl ltac:(lia))).
  lia.
Defined.

(** X25. [cidr2netmask] looks at nothing but the piece between the first
    slash and the second one: a text without a slash raises [IndexError],
    the address before the slash is not looked at, and whatever follows a
    second slash is dropped. *)
Theorem cidr2netmask_reads_second_piece (int : string -> option Z)
    (maxsize memory : Z) (address : string) :
  without "/" address ->
  cidr2netmask int maxsize memory address = inl IndexError /\
  forall length rest : string,
    without "/" length ->
    cidr2netmask int maxsize memory (address +:+ "/" +:+ length)
    = cidr2netmask int maxsize memory ("/" +:+ length) /\
    cidr2netmask int maxsize memory (address +:+ "/" +:+ length +:+ "/" +:+ rest)
    = cidr2netmask int maxsize memory ("/" +:+ length).
Proof.
  intros Ha. split.
  - unfold cidr2netmask. rewrite str_split_one by exact Ha. reflexivity.
  - intros length rest Hl.
    assert (H0 : str_split "/" ("/" +:+ length) !! 1%nat = Some length).
    { change ("/" +:+ length) with ("" +:+ String "/" length).
      rewrite str_split_app by exact I. rewrite str_split_one by exact Hl.
      reflexivity. }
    assert (H1 : str_split "/" (address +:+ "/" +:+ length) !! 1%nat = Some length).
    { change ("/" +:+ length) with (String "/" length).
      rewrite str_split_app by exact Ha. rewrite str_split_one by exact Hl.
      reflexivity. }
    assert (H2 : str_split "/" (address +:+ "/" +:+ length +:+ "/" +:+ rest) !! 1%nat
                 = Some length).
    { change ("/" +:+ length +:+ "/" +:+ rest)
        with (String "/" (length +:+ String "/" rest)).
      rewrite str_split_app by exact Ha. rewrite str_split_app by exact Hl.
      reflexivity. }
    unfold cidr2netmask. rewrite H0, H1, H2. split; reflexivity.
Qed.

Lemma cidr2netmask_reads_second_piece_witness :
  cidr2netmask int_of_digits (2 ^ 63 - 1) (2 ^ 30) "10.0.0.0" = inl IndexError.
Proof.
  apply (cidr2netmask_reads_second_piece int_of_digits (2 ^ 63 - 1) (2 ^ 30)
           "10.0.0.0").
  vm_compute. repeat split; discriminate.
Defined.

Local Close Scope Z_scope.
